(** * Traditional (five-card draw) poker hand engine

    A shallow embedding of [poker/poker_game_traditional.py]: blind
    collection, the card-exchange round with its message validation, and
    the hand life cycle of [play_hand], followed by the properties of the
    specification that concern them. *)

From Stdlib Require Import ZArith QArith DecimalString.
From stdpp Require Import gmap strings list fin_maps.

Set Warnings "-register-all".

Open Scope Z_scope.

(** ** Python values carried by a decoded message *)

(** A decoded message holds JSON-like values.  A float is finite and is
    represented by its exact value, which is all that [==] between numbers
    looks at. *)
Inductive PyValue : Type :=
  | PyNone
  | PyBool (b : bool)
  | PyInt (z : Z)
  | PyFloat (q : Q)
  | PyStr (s : string)
  | PyList (l : list PyValue)
  | PyDict (d : list (string * PyValue)).

Definition PlayerId : Type := string.

(** ** Exceptions and results *)

Inductive Exn : Type :=
  | ChannelError (description : string)
  | MessageTimeout (description : string)
  | MessageFormatError (attribute desc : option string)
  | TypeError
  | IndexError
  | EndGameException
  | GameError (description : string).

Inductive Outcome (A : Type) : Type :=
  | Return (a : A)
  | Raise (e : Exn).
Arguments Return {A} a.
Arguments Raise {A} e.

Definition obind {A B} (m : Outcome A) (k : A -> Outcome B) : Outcome B :=
  match m with
  | Return a => k a
  | Raise e => Raise e
  end.

Notation "x <~ m ;; k" := (obind m (fun x => k))
  (at level 100, m at next level, right associativity).

(** [[f(x) for x in l]]: the first exception raised ends the comprehension. *)
Fixpoint comprehension {A B} (f : A -> Outcome B) (l : list A) : Outcome (list B) :=
  match l with
  | [] => Return []
  | x :: l' => y <~ f x ;; ys <~ comprehension f l' ;; Return (y :: ys)
  end.

(** ** The Python operations used by discard validation *)

(** Iterating a value: a list yields its items, a string its characters, a
    dict its keys; anything else is not iterable. *)
Definition py_iter (v : PyValue) : Outcome (list PyValue) :=
  match v with
  | PyList l => Return l
  | PyStr s =>
      Return (map (fun c => PyStr (String c EmptyString))
                  (Strings.String.list_ascii_of_string s))
  | PyDict d => Return (map (fun kv => PyStr (fst kv)) d)
  | _ => Raise TypeError
  end.

Definition py_hashable (v : PyValue) : bool :=
  match v with
  | PyList _ | PyDict _ => false
  | _ => true
  end.

(** Numbers compare by value across bool, int and float ([True == 1 == 1.0]). *)
Definition py_num (v : PyValue) : option Q :=
  match v with
  | PyBool b => Some (inject_Z (Z.b2z b))
  | PyInt z => Some (inject_Z z)
  | PyFloat q => Some q
  | _ => None
  end.

Definition py_eqb (a b : PyValue) : bool :=
  match py_num a, py_num b with
  | Some x, Some y => Qeq_bool x y
  | None, None =>
      match a, b with
      | PyNone, PyNone => true
      | PyStr s, PyStr t => String.eqb s t
      | _, _ => false
      end
  | _, _ => false
  end.

(** Adding to a set keeps the element already present. *)
Definition set_add (seen : list PyValue) (x : PyValue) : list PyValue :=
  if existsb (py_eqb x) seen then seen else seen ++ [x].

(** [list(set(v))].  The elements are listed in the order of their first
    occurrence; the order in which CPython enumerates a set is not used by
    anything below, only which elements survive. *)
Definition py_list_set (v : PyValue) : Outcome (list PyValue) :=
  items <~ py_iter v ;;
  if forallb py_hashable items then Return (fold_left set_add items [])
  else Raise TypeError.

(** No two elements of the list are equal for Python. *)
Fixpoint distinct_keys (l : list PyValue) : Prop :=
  match l with
  | [] => True
  | a :: l' => Forall (fun b => py_eqb a b = false) l' /\ distinct_keys l'
  end.

(** A list index must be an int (a bool is an int). *)
Definition py_index (key : PyValue) : Outcome Z :=
  match key with
  | PyBool b => Return (Z.b2z b)
  | PyInt z => Return z
  | _ => Raise TypeError
  end.

(** [l[key]]: a negative index counts from the end of the list. *)
Definition py_getitem {A} (l : list A) (key : PyValue) : Outcome A :=
  i <~ py_index key ;;
  let n := Z.of_nat (length l) in
  let j := if i <? 0 then i + n else i in
  if (j <? 0) || (n <=? j) then Raise IndexError
  else match l !! Z.to_nat j with
       | Some x => Return x
       | None => Raise IndexError
       end.

(** ** Cards, deck and scores *)

Record Card : Type := { rank : Z; suit : Z }.

Global Instance Card_eq_dec : EqDecision Card.
Proof. solve_decision. Defined.

(** [card in cards]. *)
Definition card_in (c : Card) (cards : list Card) : bool :=
  bool_decide (c ∈ cards).

(** Modelled from the spec: the Deck collaborator, a pool of remaining
    cards plus a discard pile.  Drawing takes cards from the pool, and
    turns the discard pile into the new pool when the pool runs short (a
    deck that holds fewer cards than asked gives what it holds); returned
    cards go to the discard pile. *)
Record Deck : Type := { pool : list Card; discards : list Card }.

Definition deck_size (d : Deck) : nat := length (pool d) + length (discards d).

Definition pop_cards (n : nat) (d : Deck) : list Card * Deck :=
  if (n <=? length (pool d))%nat then
    (take n (pool d), {| pool := drop n (pool d); discards := discards d |})
  else
    let m := (n - length (pool d))%nat in
    (pool d ++ take m (discards d), {| pool := drop m (discards d); discards := [] |}).

Definition push_cards (cs : list Card) (d : Deck) : Deck :=
  {| pool := pool d; discards := discards d ++ cs |}.

(** Modelled from the spec: the Scores collaborator, a mapping from player
    id to the player's current hand; a player with no entry holds no
    cards. *)
Definition player_cards (pid : PlayerId) (sc : gmap PlayerId (list Card)) : list Card :=
  default [] (sc !! pid).

Definition assign_cards (pid : PlayerId) (cs : list Card)
    (sc : gmap PlayerId (list Card)) : gmap PlayerId (list Card) :=
  <[pid := cs]> sc.

(** ** Validation of a change-cards message *)

(** Modelled from the spec: [MessageFormatError.validate_message_type], the
    message must be of the expected kind. *)
Definition validate_message_type (message : gmap string PyValue) (expected : string)
    : Outcome unit :=
  match message !! "message_type"%string with
  | Some (PyStr t) =>
      if String.eqb t expected then Return tt
      else Raise (MessageFormatError (Some "message_type"%string) None)
  | _ => Raise (MessageFormatError (Some "message_type"%string) None)
  end.

(** The [try] block of [_get_player_discard]. *)
Definition resolve_discard (discard_keys : PyValue) (hand : list Card)
    : Outcome (list Card) :=
  discard_keys <~ py_list_set discard_keys ;;
  if (4 <? length discard_keys)%nat then
    Raise (MessageFormatError (Some "cards"%string)
                              (Some "Maximum number of cards exceeded"%string))
  else comprehension (py_getitem hand) discard_keys.

(** [except (TypeError, IndexError)]: only these two are converted. *)
Definition invalid_list_of_cards {A} (r : Outcome A) : Outcome A :=
  match r with
  | Raise TypeError | Raise IndexError =>
      Raise (MessageFormatError (Some "cards"%string) (Some "Invalid list of cards"%string))
  | _ => r
  end.

(** [_get_player_discard], after the message has been received. *)
Definition parse_discard (message : gmap string PyValue) (hand : list Card)
    : Outcome (list Card) :=
  _ <~ validate_message_type message "change-cards" ;;
  match message !! "cards"%string with
  | None =>
      Raise (MessageFormatError (Some "cards"%string) (Some "Attribute is missing"%string))
  | Some discard_keys => invalid_list_of_cards (resolve_discard discard_keys hand)
  end.

(** The two format errors of the "cards" field raised inside the [try]
    block and by its [except] clause. *)
Definition invalid_cards : Exn :=
  MessageFormatError (Some "cards"%string) (Some "Invalid list of cards"%string).

Definition too_many_cards : Exn :=
  MessageFormatError (Some "cards"%string) (Some "Maximum number of cards exceeded"%string).

(** ** Players and roster *)

(** Modelled from the spec: a Player has an identity, a money balance and
    an activity flag; GamePlayers is the ordered collection of the seated
    players.  A player object is shared, so a change to it is a change of
    the roster entry that carries its id.  Money is counted in whole
    chips. *)
Record Player : Type := { player_id : PlayerId; money : Z; is_active : bool }.

Definition update_player (pid : PlayerId) (f : Player -> Player) (gp : list Player)
    : list Player :=
  map (fun p => if String.eqb (player_id p) pid then f p else p) gp.

(** [game_players.active]: the players still in the hand, in seating order. *)
Definition active (gp : list Player) : list Player := filter (fun p => is_active p = true) gp.

Definition count_active (gp : list Player) : nat := length (active gp).

Definition count_active_with_money (gp : list Player) : nat :=
  length (filter (fun p => 0 < money p) (active gp)).

Definition deactivate (p : Player) : Player :=
  {| player_id := player_id p; money := money p; is_active := false |}.

Definition debit (amount : Z) (p : Player) : Player :=
  {| player_id := player_id p; money := money p - amount; is_active := is_active p |}.

(** [game_players.remove(player_id)]: the activity flag is cleared. *)
Definition remove (pid : PlayerId) (gp : list Player) : list Player :=
  update_player pid deactivate gp.

(** [player.take_money(amount)]. *)
Definition take_money (pid : PlayerId) (amount : Z) (gp : list Player) : list Player :=
  update_player pid (debit amount) gp.

(** [game_players.round(dealer_id)]: the rotation starts with the seat
    after the dealer and skips the players that are not active. *)
Definition rotation (dealer_id : PlayerId) (gp : list Player) : list Player :=
  match list_find (fun p => player_id p = dealer_id) gp with
  | Some (i, _) => drop (S i) gp ++ take (S i) gp
  | None => gp
  end.

Definition round (dealer_id : PlayerId) (gp : list Player) : list Player :=
  active (rotation dealer_id gp).

(** ** Time *)

(** [time.time()] and the deadlines computed from it are Python floats,
    that is binary64 numbers.  Every finite binary64 number is a whole
    multiple of 2^-1074, and a float is held here as that multiple, so that
    the order of the floats is the order of the integers and [second] is
    the float [1.0].  Infinities and NaN are not represented: a clock
    reading is finite, and a sum leaves the finite numbers only above
    2^1024 seconds. *)
Definition Timestamp : Type := Z.

Definition second : Timestamp := 2 ^ 1074.

(** The binary64 number nearest to an exact value: 53 significant bits are
    kept and a tie goes to the even significand. *)
Definition binary64 (x : Z) : Timestamp :=
  let a := Z.abs x in
  let ulp := 2 ^ Z.max 0 (Z.log2 a - 52) in
  let q := a / ulp in
  let r := a mod ulp in
  let up := (ulp <? 2 * r) || ((ulp =? 2 * r) && Z.odd q) in
  Z.sgn x * ((if up then q + 1 else q) * ulp).

(** [float(n)] for an int [n]. *)
Definition float_of_int (n : Z) : Timestamp := binary64 (n * second).

(** [t + n] for a float [t] and an int [n]: the int is converted, and the
    sum is rounded. *)
Definition float_plus (t : Timestamp) (n : Z) : Timestamp := binary64 (t + float_of_int n).

(** The fields of [time.struct_time] that the date format reads. *)
Record struct_time : Type := {
  tm_year : Z; tm_mon : Z; tm_mday : Z; tm_hour : Z; tm_min : Z; tm_sec : Z
}.

(** The seconds since the epoch without their fraction. *)
Definition whole_seconds (t : Timestamp) : Z := t / second.

(** Year, month and day of a day counted from 1970-01-01, in the Gregorian
    calendar: the days are counted from a first of March in cycles of 400
    years, which puts the leap day at the end of a year. *)
Definition civil_from_days (days : Z) : Z * Z * Z :=
  let z := days + 719468 in
  let era := z / 146097 in
  let doe := z mod 146097 in
  let yoe := (doe - doe / 1460 + doe / 36524 - doe / 146096) / 365 in
  let doy := doe - (365 * yoe + yoe / 4 - yoe / 100) in
  let mp := (5 * doy + 2) / 153 in
  let d := doy - (153 * mp + 2) / 5 + 1 in
  let m := if mp <? 10 then mp + 3 else mp - 9 in
  (yoe + era * 400 + (if m <=? 2 then 1 else 0), m, d).

(** [time.gmtime(t)]: the UTC date and time of day of the whole second
    that [t] has reached; the fraction of [t] is dropped (before 1970 the
    whole second is the one below [t]).  The library refuses a time that
    its platform cannot hold as a date, which is millions of years away
    from any clock reading; the date is computed for every time here. *)
Definition gmtime (t : Timestamp) : struct_time :=
  let s := whole_seconds t in
  let '(y, m, d) := civil_from_days (s / 86400) in
  let sod := s mod 86400 in
  {| tm_year := y; tm_mon := m; tm_mday := d;
     tm_hour := sod / 3600; tm_min := sod mod 3600 / 60; tm_sec := sod mod 60 |}.

(** A number in decimal.  The year is written so: with four digits from
    the year 1000 to the year 9999. *)
Definition decimal (n : Z) : string := NilZero.string_of_int (Z.to_int n).

Definition two_digits (n : Z) : string := decimal (n / 10) +:+ decimal (n mod 10).

(** [time.strftime("%Y-%m-%d %H:%M:%S+0000", tm)]. *)
Definition strftime (tm : struct_time) : string :=
  decimal (tm_year tm) +:+ "-" +:+ two_digits (tm_mon tm) +:+ "-" +:+ two_digits (tm_mday tm)
  +:+ " " +:+ two_digits (tm_hour tm) +:+ ":" +:+ two_digits (tm_min tm) +:+ ":"
  +:+ two_digits (tm_sec tm) +:+ "+0000".

(** ** Events, trace and state of a hand *)

(** The events of the dispatcher, with what their payload carries; the
    public view of a player is taken to be its id. *)
Inductive Event (Pots : Type) : Type :=
  | DeadPlayer (player : PlayerId)
  | PotsUpdate (player_ids : list PlayerId) (pots : Pots)
  | NewGame (game_id : string) (player_ids : list PlayerId) (dealer_id : PlayerId)
            (blind_bets : gmap PlayerId Z)
  | GameOver
  | ChangeCardsAction (player : PlayerId) (timeout : Z) (timeout_date : string)
  | ChangeCards (player : PlayerId) (num_cards : nat).
Arguments DeadPlayer {Pots} player.
Arguments PotsUpdate {Pots} player_ids pots.
Arguments NewGame {Pots} game_id player_ids dealer_id blind_bets.
Arguments GameOver {Pots}.
Arguments ChangeCardsAction {Pots} player timeout timeout_date.
Arguments ChangeCards {Pots} player num_cards.

(** The routines of the base game that [play_hand] calls. *)
Inductive Routine : Type := AssignCards | BetRound | Showdown | DetectWinners.

(** What the engine does that can be observed from outside, in order. *)
Inductive Action (Pots Output : Type) : Type :=
  | Dispatch (e : Event Pots)
  | SendMessage (player : PlayerId) (message : gmap string PyValue)
  | RecvMessage (player : PlayerId) (timeout_epoch : Timestamp)
  | SendPlayerScore (player : PlayerId) (cards : list Card)
  | Sleep (seconds : Z)
  | Call (r : Routine)
  | Inside (o : Output).
Arguments Dispatch {Pots Output} e.
Arguments SendMessage {Pots Output} player message.
Arguments RecvMessage {Pots Output} player timeout_epoch.
Arguments SendPlayerScore {Pots Output} player cards.
Arguments Sleep {Pots Output} seconds.
Arguments Call {Pots Output} r.
Arguments Inside {Pots Output} o.

(** What the collaborators read and change.  [clock] is what [time.time()]
    reads. *)
Record Table (Pots : Type) : Type := {
  players : list Player;
  deck : Deck;
  scores : gmap PlayerId (list Card);
  pots : Pots;
  clock : Timestamp
}.
Arguments players {Pots} t.
Arguments deck {Pots} t.
Arguments scores {Pots} t.
Arguments pots {Pots} t.
Arguments clock {Pots} t.

Definition with_players {Pots} (gp : list Player) (t : Table Pots) : Table Pots :=
  {| players := gp; deck := deck t; scores := scores t; pots := pots t; clock := clock t |}.

Definition with_deck {Pots} (d : Deck) (t : Table Pots) : Table Pots :=
  {| players := players t; deck := d; scores := scores t; pots := pots t; clock := clock t |}.

Definition with_scores {Pots} (sc : gmap PlayerId (list Card)) (t : Table Pots) : Table Pots :=
  {| players := players t; deck := deck t; scores := sc; pots := pots t; clock := clock t |}.

Definition with_pots {Pots} (p : Pots) (t : Table Pots) : Table Pots :=
  {| players := players t; deck := deck t; scores := scores t; pots := p; clock := clock t |}.

Definition with_clock {Pots} (c : Timestamp) (t : Table Pots) : Table Pots :=
  {| players := players t; deck := deck t; scores := scores t; pots := pots t; clock := c |}.

(** What [player.recv_message] gives: a decoded message, or one of the
    three failures of the channel layer. *)
Inductive Received : Type :=
  | Message (message : gmap string PyValue)
  | ChannelFailure (description : string)
  | Malformed (attribute desc : option string)
  | TimedOut (description : string).

Definition received_outcome (r : Received) : Outcome (gmap string PyValue) :=
  match r with
  | Message m => Return m
  | ChannelFailure d => Raise (ChannelError d)
  | Malformed a d => Raise (MessageFormatError a d)
  | TimedOut d => Raise (MessageTimeout d)
  end.

(** Modelled from the spec: the collaborators of the hand engine, which are
    outside this file of the repository: the pots, the roster reset, the
    deck factory, the routines of the base game and the channel of a player.
    A routine changes the table and leaves its own outputs; the channel
    answers a receive with what arrived and the time at which it returned;
    [error_text e] is [e.args[0]]. *)
Class Collaborators : Type := {
  Pots : Type;
  Output : Type;
  game_id : string;
  reset : list Player -> list Player;
  create_deck : Deck;
  create_pots : Pots;
  add_bets : gmap PlayerId Z -> Pots -> Pots;
  _assign_cards : nat -> PlayerId -> Table Pots -> Table Pots * list Output;
  bet_round : PlayerId -> Table Pots -> Table Pots * list Output;
  _showdown : Table Pots -> Table Pots * list Output;
  _detect_winners : Table Pots -> Table Pots * list Output;
  recv_message : PlayerId -> Timestamp -> Timestamp -> Received * Timestamp;
  error_text : Exn -> string
}.

Record World `{Collaborators} : Type := {
  table : Table Pots;
  trace : list (Action Pots Output)
}.

(** ** The engine monad: state, trace and exceptions *)

Section Engine.
Context `{Collaborators}.

(** A computation changes the world and either returns or raises; what it
    changed before raising stays changed. *)
Definition Engine (A : Type) : Type := World -> Outcome A * World.

Definition ret {A} (a : A) : Engine A := fun w => (Return a, w).

Definition raise {A} (e : Exn) : Engine A := fun w => (Raise e, w).

Definition bind {A B} (m : Engine A) (k : A -> Engine B) : Engine B :=
  fun w =>
    match m w with
    | (Return a, w') => k a w'
    | (Raise e, w') => (Raise e, w')
    end.

Definition lift {A} (r : Outcome A) : Engine A := fun w => (r, w).

Definition gets {A} (f : Table Pots -> A) : Engine A := fun w => (Return (f (table w)), w).

Definition modify (f : Table Pots -> Table Pots) : Engine unit :=
  fun w => (Return tt, {| table := f (table w); trace := trace w |}).

Definition emit (a : Action Pots Output) : Engine unit :=
  fun w => (Return tt, {| table := table w; trace := trace w ++ [a] |}).

(** [try: body / except <classes>: handler / else: orelse].  An exception
    that no clause names, and one raised by the handler or by the else
    branch, goes on to the caller. *)
Definition try_except_else {A B} (body : Engine A)
    (handler : Exn -> option (Engine B)) (orelse : A -> Engine B) : Engine B :=
  fun w =>
    match body w with
    | (Return a, w') => orelse a w'
    | (Raise e, w') =>
        match handler e with
        | Some h => h w'
        | None => (Raise e, w')
        end
    end.

End Engine.

Notation "x <- m ;; k" := (bind m (fun x => k))
  (at level 100, m at next level, right associativity).
Notation "m ;;; k" := (bind m (fun _ => k))
  (at level 100, right associativity).

Section Game.
Context `{Collaborators}.

(** [for x in l: body x]. *)
Fixpoint for_each {A} (l : list A) (body : A -> Engine unit) : Engine unit :=
  match l with
  | [] => ret tt
  | x :: l' => body x ;;; for_each l' body
  end.

Definition set_players (f : list Player -> list Player) : Engine unit :=
  modify (fun t => with_players (f (players t)) t).

Definition set_deck (d : Deck) : Engine unit := modify (with_deck d).

Definition set_scores (sc : gmap PlayerId (list Card)) : Engine unit := modify (with_scores sc).

Definition set_pots (p : Pots) : Engine unit := modify (with_pots p).

Definition set_clock (c : Timestamp) : Engine unit := modify (with_clock c).

(** An event raised by the dispatcher. *)
Definition dispatch (e : Event Pots) : Engine unit := emit (Dispatch e).

(** [change_cards_action_event] of the dispatcher: the player-action event
    carries the timeout and, as [timeout_date], the date of the deadline. *)
Definition change_cards_action_event (player : PlayerId) (timeout : Z)
    (timeout_epoch : Timestamp) : Engine unit :=
  dispatch (ChangeCardsAction player timeout (strftime (gmtime timeout_epoch))).

(** A call of a routine of the base game: the call is recorded, then the
    routine changes the table and leaves its outputs. *)
Definition call (r : Routine) (f : Table Pots -> Table Pots * list Output) : Engine unit :=
  fun w =>
    let '(t, out) := f (table w) in
    (Return tt, {| table := t; trace := trace w ++ Call r :: map Inside out |}).

(** [gevent.sleep(seconds)]. *)
Definition sleep (seconds : Z) : Engine unit := emit (Sleep seconds).

(** [player.send_message(message)]; modelled from the spec as a best-effort
    notice that does not fail. *)
Definition send_message (player : PlayerId) (message : gmap string PyValue) : Engine unit :=
  emit (SendMessage player message).

(** [player.recv_message(timeout_epoch=...)]. *)
Definition recv (player : PlayerId) (timeout_epoch : Timestamp)
    : Engine (gmap string PyValue) :=
  emit (RecvMessage player timeout_epoch) ;;;
  now <- gets clock ;;
  let '(r, later) := recv_message player timeout_epoch now in
  set_clock later ;;;
  lift (received_outcome r).

(** Modelled from the spec: [_send_player_score], the updated hand is
    pushed to the player privately. *)
Definition _send_player_score (player : PlayerId) : Engine unit :=
  sc <- gets scores ;;
  emit (SendPlayerScore player (player_cards player sc)).

(** ** Constants of [TraditionalPokerGame] *)

Definition TIMEOUT_TOLERANCE : Z := 2.
Definition BET_TIMEOUT : Z := 30.
Definition CHANGE_CARDS_TIMEOUT : Z := 30.
Definition WAIT_AFTER_CARDS_ASSIGNMENT : Z := 0.
Definition WAIT_AFTER_BET : Z := 2.
Definition WAIT_AFTER_WINNER_DESIGNATION : Z := 5.
Definition WAIT_AFTER_HAND : Z := 0.
Definition WAIT_AFTER_CARDS_CHANGE : Z := 0.

(** ** Blinds *)

(** The first loop of [_collect_blinds], over the players that are active
    when it starts.  [player.money] is read from the snapshot: nothing
    changes a balance before the second loop. *)
Definition kick_out_poor (blind : Z) : Engine unit :=
  gp <- gets players ;;
  for_each (active gp) (fun player =>
    if money player <? blind then
      dispatch (DeadPlayer (player_id player)) ;;;
      set_players (remove (player_id player))
    else ret tt).

(** The second loop: the blind is taken from every active player and
    recorded in [bets]. *)
Fixpoint take_blinds (blind : Z) (l : list Player) (bets : gmap PlayerId Z)
    : Engine (gmap PlayerId Z) :=
  match l with
  | [] => ret bets
  | player :: l' =>
      set_players (take_money (player_id player) blind) ;;;
      take_blinds blind l' (<[player_id player := blind]> bets)
  end.

Definition _collect_blinds (blind : Z) : Engine (gmap PlayerId Z) :=
  kick_out_poor blind ;;;
  n <- gets (fun t => count_active (players t)) ;;
  if (n <? 2)%nat then raise (GameError "Not enough players")
  else
    gp <- gets players ;;
    take_blinds blind (active gp) ∅.

(** ** Cards handler *)

Definition _get_player_discard (player : PlayerId) (timeout_epoch : Timestamp)
    : Engine (list Card) :=
  message <- recv player timeout_epoch ;;
  sc <- gets scores ;;
  lift (parse_discard message (player_cards player sc)).

(** [{"message_type": "error", "error": e.args[0]}]. *)
Definition error_notice (e : Exn) : gmap string PyValue :=
  {[ "message_type"%string := PyStr "error"; "error"%string := PyStr (error_text e) ]}.

(** The [except (ChannelError, MessageFormatError, MessageTimeout)] clause. *)
Definition player_failure (player : PlayerId) (e : Exn) : option (Engine unit) :=
  match e with
  | ChannelError _ | MessageFormatError _ _ | MessageTimeout _ =>
      Some (send_message player (error_notice e) ;;;
            dispatch (DeadPlayer player) ;;;
            set_players (remove player))
  | _ => None
  end.

(** The [else] clause: the exchange itself. *)
Definition exchange (player : PlayerId) (discard : list Card) : Engine unit :=
  (match discard with
   | [] => ret tt
   | _ :: _ =>
       d <- gets deck ;;
       let '(new_cards, d') := pop_cards (length discard) d in
       set_deck (push_cards discard d') ;;;
       sc <- gets scores ;;
       let cards := filter (fun card => card_in card discard = false) (player_cards player sc)
                    ++ new_cards in
       set_scores (assign_cards player cards sc) ;;;
       _send_player_score player
   end) ;;;
  dispatch (ChangeCards player (length discard)).

(** The body of the loop of [_change_cards_round]. *)
Definition change_cards_turn (player : PlayerId) : Engine unit :=
  now <- gets clock ;;
  let timeout_epoch := float_plus now CHANGE_CARDS_TIMEOUT in
  change_cards_action_event player CHANGE_CARDS_TIMEOUT timeout_epoch ;;;
  try_except_else
    (_get_player_discard player (float_plus timeout_epoch TIMEOUT_TOLERANCE))
    (player_failure player)
    (exchange player).

(** The rotation is taken when the loop starts: a turn removes no other
    player than its own, so these are the players the generator yields. *)
Definition _change_cards_round (dealer_id : PlayerId) : Engine unit :=
  gp <- gets players ;;
  for_each (round dealer_id gp) (fun player => change_cards_turn (player_id player)).

(** ** Game logic *)

Definition detect_game_over : Engine unit :=
  n <- gets (fun t => count_active (players t)) ;;
  if (n <? 2)%nat then raise EndGameException else ret tt.

(** Modelled from the spec: [_game_over_detection] of the base game, the
    same check as [detect_game_over]. *)
Definition _game_over_detection : Engine unit := detect_game_over.

(** The [try] block of [play_hand]. *)
Definition hand_phases (dealer_id : PlayerId) : Engine unit :=
  call AssignCards (_assign_cards 5 dealer_id) ;;;
  detect_game_over ;;;
  sleep WAIT_AFTER_CARDS_ASSIGNMENT ;;;
  call BetRound (bet_round dealer_id) ;;;
  detect_game_over ;;;
  _change_cards_round dealer_id ;;;
  detect_game_over ;;;
  sleep WAIT_AFTER_CARDS_CHANGE ;;;
  n <- gets (fun t => count_active_with_money (players t)) ;;
  (if (n <? 2)%nat then raise EndGameException else ret tt) ;;;
  call BetRound (bet_round dealer_id) ;;;
  _game_over_detection ;;;
  raise EndGameException.

(** The [except EndGameException] clause. *)
Definition end_game (e : Exn) : option (Engine unit) :=
  match e with
  | EndGameException =>
      Some (n <- gets (fun t => count_active (players t)) ;;
            (if (1 <? n)%nat then call Showdown _showdown else ret tt) ;;;
            call DetectWinners _detect_winners ;;;
            sleep WAIT_AFTER_HAND)
  | _ => None
  end.

(** The four objects made at the start of [play_hand]. *)
Definition create_hand : Engine unit :=
  set_players reset ;;;
  set_deck create_deck ;;;
  set_scores ∅ ;;;
  set_pots create_pots.

(** The new-game event, the blinds added to the pots, the pots update. *)
Definition announce (dealer_id : PlayerId) (blind_bets : gmap PlayerId Z) : Engine unit :=
  gp <- gets players ;;
  dispatch (NewGame game_id (map player_id (active gp)) dealer_id blind_bets) ;;;
  p <- gets pots ;;
  set_pots (add_bets blind_bets p) ;;;
  gp <- gets players ;;
  p <- gets pots ;;
  dispatch (PotsUpdate (map player_id (active gp)) p).

(** Everything of [play_hand] that comes before the [try] statement. *)
Definition open_hand (blind : Z) (dealer_id : PlayerId) : Engine unit :=
  create_hand ;;;
  blind_bets <- _collect_blinds blind ;;
  announce dealer_id blind_bets.

Definition play_hand (blind : Z) (dealer_id : PlayerId) : Engine unit :=
  open_hand blind dealer_id ;;;
  try_except_else (hand_phases dealer_id) end_game (fun _ => ret tt) ;;;
  dispatch GameOver.


(** The actions by which the end of a hand is recognised in a trace. *)
Definition is_payout (a : Action Pots Output) : bool :=
  match a with Call DetectWinners => true | _ => false end.

Definition is_showdown (a : Action Pots Output) : bool :=
  match a with Call Showdown => true | _ => false end.

Definition is_game_over (a : Action Pots Output) : bool :=
  match a with Dispatch GameOver => true | _ => false end.

Definition quiet (a : Action Pots Output) : bool :=
  negb (is_payout a || is_showdown a || is_game_over a).

End Game.

(** ** Tables and traces written out *)

Section Written_out.
Context `{Collaborators}.

(** A failure of one of the three classes that the round handles. *)
Definition protocol_failure (e : Exn) : Prop :=
  match e with
  | ChannelError _ | MessageFormatError _ _ | MessageTimeout _ => True
  | _ => False
  end.

(** The outcome of asking a player, as a function of the table. *)
Definition asked (player : PlayerId) (timeout_epoch : Timestamp) (t : Table Pots)
    : Outcome (list Card) * Timestamp :=
  let '(r, later) := recv_message player timeout_epoch (clock t) in
  (message <~ received_outcome r ;; parse_discard message (player_cards player (scores t)),
   later).

(** The deadline of the turn that starts on table [t]: the one computed,
    the date that the player-action event shows, and the one given to the
    receive. *)
Definition deadline (t : Table Pots) : Timestamp := float_plus (clock t) CHANGE_CARDS_TIMEOUT.
Definition advertised (t : Table Pots) : string := strftime (gmtime (deadline t)).
Definition enforced (t : Table Pots) : Timestamp := float_plus (deadline t) TIMEOUT_TOLERANCE.

(** The instant that the date of the event names. *)
Definition advertised_instant (t : Table Pots) : Timestamp :=
  whole_seconds (deadline t) * second.

(** The deadlines as the specification words them: the advertised one is
    the start of the turn plus 30, the enforced one is the advertised one
    plus 2. *)
Definition exactly_two_apart (t : Table Pots) : Prop :=
  advertised_instant t = clock t + 30 * second /\
  enforced t = advertised_instant t + 2 * second.

(** The table after the exchange of the cards of [discard]. *)
Definition exchanged (player : PlayerId) (discard : list Card) (t : Table Pots) : Table Pots :=
  match discard with
  | [] => t
  | _ :: _ =>
      let '(new_cards, d') := pop_cards (length discard) (deck t) in
      with_scores
        (assign_cards player
           (filter (fun card => card_in card discard = false) (player_cards player (scores t))
            ++ new_cards)
           (scores t))
        (with_deck (push_cards discard d') t)
  end.

(** What an exchange adds to the trace. *)
Definition exchange_trace (player : PlayerId) (discard : list Card) (t : Table Pots)
    : list (Action Pots Output) :=
  match discard with
  | [] => []
  | _ :: _ => [SendPlayerScore player (player_cards player (scores (exchanged player discard t)))]
  end ++ [Dispatch (ChangeCards player (length discard))].

(** One step of the first loop of [_collect_blinds], and one of the second,
    on the roster alone. *)
Definition kick_step (blind : Z) (gp : list Player) (q : Player) : list Player :=
  if money q <? blind then remove (player_id q) gp else gp.

Definition take_step (blind : Z) (gp : list Player) (q : Player) : list Player :=
  take_money (player_id q) blind gp.

Definition dead_player_event (p : Player) : Action Pots Output :=
  Dispatch (DeadPlayer (player_id p)).

Definition same_id (p q : Player) : bool := String.eqb (player_id p) (player_id q).

(** The roster after the first loop and after the second. *)
Definition kicked (blind : Z) (gp : list Player) : list Player :=
  map (fun p => if is_active p && (money p <? blind) then deactivate p else p) gp.

Definition debited (blind : Z) (gp : list Player) : list Player :=
  map (fun p => if is_active p then debit blind p else p) gp.

(** [m] only adds quiet actions to the trace, and its outcome satisfies
    [post]. *)
Definition runs {A} (m : Engine A) (post : Outcome A -> Prop) : Prop :=
  forall w, exists tr,
    trace (snd (m w)) = trace w ++ tr /\ forallb quiet tr = true /\ post (fst (m w)).

(** The step returned, or it ended the game. *)
Definition may_end (r : Outcome unit) : Prop := r = Return tt \/ r = Raise EndGameException.

(** What the [except EndGameException] clause adds to the trace. *)
Definition shown (t : Table Pots) : list (Action Pots Output) :=
  if (1 <? count_active (players t))%nat
  then Call Showdown :: map Inside (snd (_showdown t))
  else [].

(** The table on which the winners are detected. *)
Definition shown_table (t : Table Pots) : Table Pots :=
  if (1 <? count_active (players t))%nat then fst (_showdown t) else t.

End Written_out.

(** ** A small table to run the engine on *)

(** Deals [n] cards from the pool to every player of the list. *)
Fixpoint deal (n : nat) (l : list Player) (d : Deck) (sc : gmap PlayerId (list Card))
    : Deck * gmap PlayerId (list Card) :=
  match l with
  | [] => (d, sc)
  | p :: l' =>
      let '(cs, d') := pop_cards n d in
      deal n l' d' (assign_cards (player_id p) cs sc)
  end.

(** Collaborators that deal from a fixed deck, bet nothing, and whose
    channel answers from a script. *)
Definition scripted (cards : list Card) (script : PlayerId -> Received) : Collaborators := {|
  Pots := gmap PlayerId Z;
  Output := string;
  game_id := "g1";
  reset := fun gp => gp;
  create_deck := {| pool := cards; discards := [] |};
  create_pots := ∅;
  add_bets := fun bets p => union_with (fun a b => Some (a + b)) p bets;
  _assign_cards := fun n dealer_id t =>
    let '(d, sc) := deal n (round dealer_id (players t)) (deck t) (scores t) in
    ({| players := players t; deck := d; scores := sc; pots := pots t; clock := clock t |},
     ["cards-assignment"%string]);
  bet_round := fun _ t => (t, ["bet"%string]);
  _showdown := fun t => (t, ["showdown"%string]);
  _detect_winners := fun t => (t, ["winner-designation"%string]);
  recv_message := fun p timeout_epoch now => (script p, float_plus now 1);
  error_text := fun e =>
    match e with
    | ChannelError d | MessageTimeout d | GameError d => d
    | MessageFormatError _ (Some d) => d
    | _ => "Invalid message received"%string
    end
|}.

Definition card (r s : Z) : Card := {| rank := r; suit := s |}.

(** The 24 cards of a two-player deck, ranks 9 to 14. *)
Definition cards24 : list Card :=
  r ← [14; 13; 12; 11; 10; 9]; s ← [3; 2; 1; 0]; [card r s].

(** The message [{"message_type": "change-cards", "cards": v}]. *)
Definition change_cards_message (v : PyValue) : gmap string PyValue :=
  {[ "message_type"%string := PyStr "change-cards"; "cards"%string := v ]}.

Definition change_cards (keys : list Z) : Received :=
  Message (change_cards_message (PyList (map PyInt keys))).

Definition seat (pid : PlayerId) (m : Z) : Player :=
  {| player_id := pid; money := m; is_active := true |}.

Definition start `{Collaborators} (gp : list Player) : World :=
  {| table := {| players := gp; deck := create_deck; scores := ∅;
                 pots := create_pots; clock := float_of_int 1000 |};
     trace := [] |}.

(** The number of cards held by the players. *)
Definition hands_size (sc : gmap PlayerId (list Card)) : nat :=
  map_fold (fun _ cs n => (length cs + n)%nat) 0%nat sc.

(** The cards of the deck plus those of all hands. *)
Definition total_cards {Pots} (t : Table Pots) : nat :=
  (deck_size (deck t) + hands_size (scores t))%nat.

Definition two_players : list Player := [seat "alice" 100; seat "bob" 100].

(** The table after the deal of five cards to each of the two players,
    with a channel that answers from [script]. *)
Definition dealt (script : PlayerId -> Received) : @World (scripted cards24 script) :=
  snd (@call (scripted cards24 script) AssignCards
         (@_assign_cards (scripted cards24 script) 5 "bob")
         (@start (scripted cards24 script) two_players)).

(** Every player answers with the references 0 and -5. *)
Definition aliasing : PlayerId -> Received := fun _ => change_cards [0; -5].

(** Nobody answers in time. *)
Definition silent : PlayerId -> Received := fun _ => TimedOut "Timed out".

Definition five_cards : list Card :=
  [card 14 3; card 14 2; card 14 1; card 14 0; card 13 3].

Definition three_players : list Player := [seat "alice" 100; seat "bob" 50; seat "carol" 5].

(** The table of [dealt] with the clock reading [now]. *)
Definition at_clock (now : Timestamp) (script : PlayerId -> Received)
    : @World (scripted cards24 script) :=
  {| table := with_clock now (table (dealt script)); trace := trace (dealt script) |}.

(** Two clock readings: 1700000000.75, which is three quarters of a second
    past 2023-11-14 22:13:20 UTC, and 2147483617.9999998, the last float
    before 2^31 - 30 seconds. *)
Definition quarter_to : Timestamp := 1700000000 * second + 3 * (second / 4).

Definition last_before : Timestamp := (2 ^ 31 - 30) * second - second / 2 ^ 22.

(** ** Measures and projections of a trace *)

Section Measures.
Context `{Collaborators}.

(** The player a turn of the exchange is opened for, received from, and
    closed for (with a change-cards event or a dead-player event). *)
Definition action_player (a : Action Pots Output) : option PlayerId :=
  match a with Dispatch (ChangeCardsAction p _ _) => Some p | _ => None end.

Definition recv_player (a : Action Pots Output) : option PlayerId :=
  match a with RecvMessage p _ => Some p | _ => None end.

Definition closing_player (a : Action Pots Output) : option PlayerId :=
  match a with
  | Dispatch (ChangeCards p _) | Dispatch (DeadPlayer p) => Some p
  | _ => None
  end.

(** The routines called, in order. *)
Definition called (a : Action Pots Output) : option Routine :=
  match a with Call r => Some r | _ => None end.

Definition calls_of (tr : list (Action Pots Output)) : list Routine := omap called tr.

Definition not_a_call (a : Action Pots Output) : bool :=
  match a with Call _ => false | _ => true end.

(** A change-cards event reports at most four cards. *)
Definition at_most_four (a : Action Pots Output) : bool :=
  match a with Dispatch (ChangeCards _ n) => (n <=? 4)%nat | _ => true end.

(** [m] adds only actions that pass [good] to the trace, and its outcome
    satisfies [post]. *)
Definition adds {A} (good : Action Pots Output -> bool) (m : Engine A)
    (post : Outcome A -> Prop) : Prop :=
  forall w, exists tr,
    trace (snd (m w)) = trace w ++ tr /\ forallb good tr = true /\ post (fst (m w)).

(** [m] adds a trace whose calls, with the outcome, satisfy [post]. *)
Definition calls {A} (m : Engine A) (post : Outcome A -> list Routine -> Prop) : Prop :=
  forall w, exists tr,
    trace (snd (m w)) = trace w ++ tr /\ post (fst (m w)) (calls_of tr).

End Measures.

(** The same seats, ids and balances, and nobody active who was not. *)
Definition only_deactivated (gp gp' : list Player) : Prop :=
  Forall2 (fun p q => player_id q = player_id p /\ money q = money p /\
                      (is_active q = true -> is_active p = true)) gp gp'.

(** The money of all seated players, and the money of all bets. *)
Definition total_money (gp : list Player) : Z := foldr (fun p acc => money p + acc) 0 gp.


(** The cards a deck holds. *)
Definition deck_cards (d : Deck) : list Card := pool d ++ discards d.

(** The player a dead-player event names. *)
Definition dead_player `{Collaborators} (a : Action Pots Output) : option PlayerId :=
  match a with Dispatch (DeadPlayer p) => Some p | _ => None end.

(** The same seat: same id, untouched if it was not active, and active only
    if it was. *)
Definition same_seat (p q : Player) : Prop :=
  player_id q = player_id p /\ (is_active p = false -> q = p) /\
  (is_active q = true -> is_active p = true).

(** The [try] block of [play_hand] up to the check of the money, and what
    comes after that check. *)
Definition until_final_bet `{Collaborators} (dealer_id : PlayerId) : Engine unit :=
  call AssignCards (_assign_cards 5 dealer_id) ;;;
  detect_game_over ;;;
  sleep WAIT_AFTER_CARDS_ASSIGNMENT ;;;
  call BetRound (bet_round dealer_id) ;;;
  detect_game_over ;;;
  _change_cards_round dealer_id ;;;
  detect_game_over ;;;
  sleep WAIT_AFTER_CARDS_CHANGE.

Definition final_bet `{Collaborators} (dealer_id : PlayerId) : Engine unit :=
  n <- gets (fun t => count_active_with_money (players t)) ;;
  (if (n <? 2)%nat then raise EndGameException else ret tt) ;;;
  call BetRound (bet_round dealer_id) ;;;
  _game_over_detection ;;;
  raise EndGameException.

(** Tables for the further properties: a message without the "cards"
    field; a deal during which [who] drops out; two players who hold just
    the blind; a player too poor for the blind. *)
Definition no_cards : PlayerId -> Received :=
  fun _ => Message {[ "message_type"%string := PyStr "change-cards" ]}.

Definition dropping (who : PlayerId) : Collaborators := {|
  Pots := @Pots (scripted cards24 silent);
  Output := @Output (scripted cards24 silent);
  game_id := @game_id (scripted cards24 silent);
  reset := @reset (scripted cards24 silent);
  create_deck := @create_deck (scripted cards24 silent);
  create_pots := @create_pots (scripted cards24 silent);
  add_bets := @add_bets (scripted cards24 silent);
  _assign_cards := fun n dealer_id t =>
    (with_players (remove who (players t)) t, ["disconnected"%string]);
  bet_round := @bet_round (scripted cards24 silent);
  _showdown := @_showdown (scripted cards24 silent);
  _detect_winners := @_detect_winners (scripted cards24 silent);
  recv_message := @recv_message (scripted cards24 silent);
  error_text := @error_text (scripted cards24 silent)
|}.

Definition all_in : list Player := [seat "alice" 10; seat "bob" 10].

Definition one_poor : list Player := [seat "alice" 100; seat "carol" 5].

(** * Properties *)

(** ** Discard validation *)

Lemma obind_return {A B} (m : Outcome A) (k : A -> Outcome B) b :
  obind m k = Return b -> exists a, m = Return a /\ k a = Return b.
Proof. destruct m as [a|e]; simpl; [eauto | discriminate]. Qed.

Lemma obind_raise {A B} (m : Outcome A) (k : A -> Outcome B) e :
  obind m k = Raise e -> m = Raise e \/ exists a, m = Return a /\ k a = Raise e.
Proof. destruct m as [a|e']; simpl; [eauto | intros [= ->]; auto]. Qed.

(** The exceptions a list access can raise. *)
Lemma py_getitem_raises {A} (l : list A) key e :
  py_getitem l key = Raise e -> e = TypeError \/ e = IndexError.
Proof.
  unfold py_getitem. destruct key; simpl; try (intros [= <-]; auto).
  all: repeat case_match; intros [= <-]; auto.
Qed.

Lemma comprehension_raises {A B} (f : A -> Outcome B) (P : Exn -> Prop) l e :
  (forall x e', f x = Raise e' -> P e') ->
  comprehension f l = Raise e -> P e.
Proof.
  intros Hf. induction l as [|x l IH]; simpl; [discriminate|].
  destruct (f x) eqn:Hx; simpl; [|intros [= <-]; eauto].
  destruct (comprehension f l); simpl; [discriminate|].
  intros [= <-]. auto.
Qed.

Lemma comprehension_length {A B} (f : A -> Outcome B) l ys :
  comprehension f l = Return ys -> length ys = length l.
Proof.
  revert ys. induction l as [|x l IH]; simpl; intros ys.
  - intros [= <-]. reflexivity.
  - destruct (f x); simpl; [|discriminate].
    destruct (comprehension f l); simpl; [|discriminate].
    intros [= <-]. simpl. f_equal. auto.
Qed.

(** A comprehension fails as soon as one of its items fails. *)
Lemma comprehension_fails {A B} (f : A -> Outcome B) l x :
  x ∈ l -> (forall y, f x <> Return y) -> forall ys, comprehension f l <> Return ys.
Proof.
  intros Hin Hx. induction l as [|z l IH]; [inversion Hin|].
  intros ys. simpl. apply elem_of_cons in Hin as [<- | Hin].
  - destruct (f x) eqn:E; simpl; [exfalso; eapply Hx; eauto | discriminate].
  - destruct (f z); simpl; [|discriminate].
    destruct (comprehension f l) eqn:E; simpl; [|discriminate].
    exfalso. eapply IH; eauto.
Qed.

Lemma py_list_set_raises v e : py_list_set v = Raise e -> e = TypeError.
Proof.
  unfold py_list_set. destruct (py_iter v) eqn:Hi; simpl.
  - case_match; [discriminate | congruence].
  - destruct v; simpl in Hi; congruence.
Qed.

(** What the [try] block can raise. *)
Lemma resolve_discard_raises v hand e :
  resolve_discard v hand = Raise e ->
  e = TypeError \/ e = IndexError \/
  e = MessageFormatError (Some "cards"%string) (Some "Maximum number of cards exceeded"%string).
Proof.
  unfold resolve_discard. intros He.
  apply obind_raise in He as [He | (keys & Hk & He)].
  - apply py_list_set_raises in He. auto.
  - case_match.
    + injection He as <-. auto.
    + apply (comprehension_raises _ (fun e => e = TypeError \/ e = IndexError)) in He.
      * tauto.
      * intros x e'. apply py_getitem_raises.
Qed.

Lemma invalid_list_of_cards_typed {A} (r : Outcome A) e :
  (forall e', r = Raise e' ->
     e' = TypeError \/ e' = IndexError \/ exists a d, e' = MessageFormatError a d) ->
  invalid_list_of_cards r = Raise e -> exists a d, e = MessageFormatError a d.
Proof.
  intros Hr. destruct r as [x|e']; simpl; [discriminate|].
  destruct (Hr e' eq_refl) as [-> | [-> | (a & d & ->)]]; intros [= <-]; eauto.
Qed.

Lemma validate_message_type_raises message expected e :
  validate_message_type message expected = Raise e -> exists a d, e = MessageFormatError a d.
Proof.
  unfold validate_message_type. repeat case_match; intros [= <-]; eauto.
Qed.

(** Whatever the message, validation raises nothing but a format error. *)
Lemma parse_discard_raises message hand e :
  parse_discard message hand = Raise e -> exists a d, e = MessageFormatError a d.
Proof.
  unfold parse_discard. intros He.
  apply obind_raise in He as [He | (u & _ & He)].
  - eapply validate_message_type_raises; eauto.
  - destruct (message !! "cards"%string) as [v|]; [|injection He as <-; eauto].
    eapply invalid_list_of_cards_typed; [|exact He].
    intros e' He'. apply resolve_discard_raises in He' as [?|[?|?]]; eauto.
Qed.

Lemma parse_discard_cards message v hand :
  validate_message_type message "change-cards" = Return tt ->
  message !! "cards"%string = Some v ->
  parse_discard message hand = invalid_list_of_cards (resolve_discard v hand).
Proof. intros Hv Hc. unfold parse_discard. rewrite Hv, Hc. reflexivity. Qed.

Lemma py_iter_raises v e : py_iter v = Raise e -> e = TypeError.
Proof. destruct v; simpl; congruence. Qed.

Lemma forallb_false_elem {A} (f : A -> bool) l x :
  x ∈ l -> f x = false -> forallb f l = false.
Proof.
  intros Hin Hx. destruct (forallb f l) eqn:E; [|reflexivity].
  rewrite forallb_forall in E. rewrite <- Hx. symmetry. apply E. by apply list_elem_of_In.
Qed.

(** C10. Validation of the "cards" field of a change-cards message is
    total and typed: it returns a discard list or raises a message-format
    error, and a TypeError or IndexError of the [try] block (the value is
    not iterable, an element is not hashable, a reference is not an
    integer or is out of range) becomes the format error with attribute
    "cards" and description "Invalid list of cards". *)
Theorem discard_validation_is_total (message : gmap string PyValue) (v : PyValue)
    (hand : list Card) :
  validate_message_type message "change-cards" = Return tt ->
  message !! "cards"%string = Some v ->
  ((exists discard, parse_discard message hand = Return discard) \/
   (exists a d, parse_discard message hand = Raise (MessageFormatError a d))) /\
  (forall e, resolve_discard v hand = Raise e -> e = TypeError \/ e = IndexError ->
     parse_discard message hand = Raise invalid_cards) /\
  ((forall items, py_iter v <> Return items) ->
     parse_discard message hand = Raise invalid_cards) /\
  (forall items x, py_iter v = Return items -> x ∈ items -> py_hashable x = false ->
     parse_discard message hand = Raise invalid_cards) /\
  (forall keys k, py_list_set v = Return keys -> (length keys <= 4)%nat -> k ∈ keys ->
     (forall c, py_getitem hand k <> Return c) ->
     parse_discard message hand = Raise invalid_cards).
Proof.
  intros Hv Hc. pose proof (parse_discard_cards _ _ hand Hv Hc) as Hp.
  assert (Hconv : forall e, resolve_discard v hand = Raise e ->
            e = TypeError \/ e = IndexError ->
            parse_discard message hand = Raise invalid_cards).
  { intros e He [-> | ->]; rewrite Hp, He; reflexivity. }
  split; [|split; [exact Hconv|split; [|split]]].
  - destruct (parse_discard message hand) as [discard|e] eqn:E; [eauto|].
    right. apply parse_discard_raises in E as (a & d & ->). eauto.
  - intros Hit. apply (Hconv TypeError); [|auto].
    unfold resolve_discard, py_list_set.
    destruct (py_iter v) as [items|e] eqn:E; [by destruct (Hit items)|].
    apply py_iter_raises in E as ->. reflexivity.
  - intros items x Hit Hin Hx. apply (Hconv TypeError); [|auto].
    unfold resolve_discard, py_list_set. rewrite Hit. simpl.
    rewrite (forallb_false_elem _ _ _ Hin Hx). reflexivity.
  - intros keys k Hk Hlen Hin Hbad.
    assert (Hr : resolve_discard v hand = comprehension (py_getitem hand) keys).
    { unfold resolve_discard. rewrite Hk. simpl.
      destruct (4 <? length keys)%nat eqn:E; [|reflexivity].
      apply Nat.ltb_lt in E. lia. }
    destruct (comprehension (py_getitem hand) keys) as [ys|e] eqn:E.
    + exfalso. eapply comprehension_fails; eauto.
    + apply (Hconv e); [congruence|].
      eapply (comprehension_raises _ (fun e => e = TypeError \/ e = IndexError)); [|exact E].
      intros y e'. apply py_getitem_raises.
Qed.

(** C9. A reference from -5 to -1 into a five-card hand is accepted and
    resolves to the card counted from the end of the hand; the references
    0 and -5 are different, both survive the removal of duplicates, and the
    discard list they give holds the first card twice. *)
Theorem negative_reference_resolves_from_the_end (hand : list Card) (i : Z) :
  length hand = 5%nat ->
  -5 <= i <= -1 ->
  (exists c, hand !! Z.to_nat (i + 5) = Some c /\
             py_getitem hand (PyInt i) = Return c /\
             parse_discard (change_cards_message (PyList [PyInt i])) hand = Return [c]) /\
  (exists c, hand !! 0%nat = Some c /\
             py_list_set (PyList [PyInt 0; PyInt (-5)]) = Return [PyInt 0; PyInt (-5)] /\
             parse_discard (change_cards_message (PyList [PyInt 0; PyInt (-5)])) hand
             = Return [c; c]).
Proof.
  intros Hlen Hi.
  destruct hand as [|c0 [|c1 [|c2 [|c3 [|c4 [|c5 hand]]]]]]; try discriminate Hlen.
  split.
  - assert (Hcases : i = -5 \/ i = -4 \/ i = -3 \/ i = -2 \/ i = -1) by lia.
    destruct Hcases as [-> | [-> | [-> | [-> | ->]]]];
      eexists; (split; [reflexivity|]); split; reflexivity.
  - exists c0. split; [reflexivity|]. split; reflexivity.
Qed.

(** Runs the primitive steps of the engine monad. *)
Ltac run_engine :=
  repeat (cbv beta iota zeta delta
            [bind ret raise lift gets modify emit dispatch change_cards_action_event
             sleep send_message call
             set_players set_deck set_scores set_pots set_clock _send_player_score];
          cbn [table trace fst snd players deck scores pots clock
               with_players with_deck with_scores with_pots with_clock]).

(** ** Rounding of deadlines *)

Lemma second_pos : 0 < second.
Proof. unfold second. apply Z.pow_pos_nonneg; lia. Qed.

(** Rounding on a grid of step [ulp] stays between two points of the grid. *)
Lemma rounded_between (ulp a b x : Z) (up : bool) :
  0 < ulp -> (ulp | a) -> (ulp | b) -> a <= x <= b ->
  (up = true -> 0 < x mod ulp) ->
  a <= (if up then x / ulp + 1 else x / ulp) * ulp <= b.
Proof.
  intros Hu [a' ->] [b' ->] [Ha Hb] Hup.
  pose proof (Z.div_mod x ulp ltac:(lia)) as Hx.
  pose proof (Z.mod_pos_bound x ulp Hu) as Hr.
  assert (a' <= x / ulp) by (apply Z.div_le_lower_bound; lia).
  destruct up.
  - specialize (Hup eq_refl). split; [nia|].
    assert (x / ulp < b') by nia. nia.
  - split; nia.
Qed.

(** Below 2^53 seconds two neighbouring floats are at most a second apart,
    and every whole second is a float. *)
Lemma ulp_divides_second (x : Z) :
  0 < x < 2 ^ 53 * second -> (2 ^ Z.max 0 (Z.log2 x - 52) | second).
Proof.
  intros [Hx Hlt]. unfold second in *.
  rewrite <- Z.pow_add_r in Hlt by lia.
  apply Z.log2_lt_pow2 in Hlt; [|lia].
  exists (2 ^ (1074 - Z.max 0 (Z.log2 x - 52))).
  rewrite <- Z.pow_add_r by lia. f_equal. lia.
Qed.

Lemma binary64_between (x m n : Z) :
  0 <= m -> n < 2 ^ 53 -> m * second <= x <= n * second ->
  m * second <= binary64 x <= n * second.
Proof.
  intros Hm Hn [Hlo Hhi]. pose proof second_pos as Hs.
  destruct (Z.eq_dec x 0) as [->|Hx0]; [vm_compute binary64; lia|].
  assert (Hx : 0 < x) by nia.
  unfold binary64. rewrite Z.abs_eq, Z.sgn_pos, Z.mul_1_l by lia.
  set (ulp := 2 ^ Z.max 0 (Z.log2 x - 52)).
  assert (Hdiv : (ulp | second)).
  { apply ulp_divides_second. split; [lia|]. nia. }
  assert (Hu : 0 < ulp) by (apply Z.pow_pos_nonneg; lia).
  apply rounded_between; try assumption.
  - apply Z.divide_mul_r. assumption.
  - apply Z.divide_mul_r. assumption.
  - auto.
  - pose proof (Z.mod_pos_bound x ulp Hu).
    intros Hup. apply orb_prop in Hup as [H1|H1].
    + apply Z.ltb_lt in H1. lia.
    + apply andb_prop in H1 as [H1 _]. apply Z.eqb_eq in H1. lia.
Qed.

Lemma float_of_int_whole (n : Z) : 0 <= n < 2 ^ 53 -> float_of_int n = n * second.
Proof.
  intros [Hn Hlt]. unfold float_of_int.
  pose proof (binary64_between (n * second) n n Hn Hlt). lia.
Qed.

Lemma whole_seconds_bounds (t : Timestamp) :
  whole_seconds t * second <= t < (whole_seconds t + 1) * second.
Proof.
  unfold whole_seconds. pose proof second_pos as Hs.
  pose proof (Z.div_mod t second ltac:(lia)). pose proof (Z.mod_pos_bound t second Hs). nia.
Qed.

Lemma whole_seconds_whole (n : Z) : whole_seconds (n * second) = n.
Proof. unfold whole_seconds. apply Z.div_mul. pose proof second_pos. lia. Qed.

(** The date shows the whole second and nothing of the fraction. *)
Lemma gmtime_whole_seconds (t : Timestamp) : gmtime (whole_seconds t * second) = gmtime t.
Proof. unfold gmtime. rewrite whole_seconds_whole. reflexivity. Qed.

(** A sum with an int moves the whole second by that int, or by one more
    when the sum is rounded up to the next second. *)
Lemma float_plus_between (t : Timestamp) (n : Z) :
  0 <= t -> 0 <= n -> whole_seconds t + n + 1 < 2 ^ 53 ->
  float_plus t n = binary64 (t + n * second) /\
  (whole_seconds t + n) * second <= float_plus t n <= (whole_seconds t + n + 1) * second /\
  whole_seconds t + n <= whole_seconds (float_plus t n) <= whole_seconds t + n + 1.
Proof.
  intros Ht Hn Hlt. pose proof second_pos as Hs.
  pose proof (whole_seconds_bounds t) as Hw.
  assert (Hw0 : 0 <= whole_seconds t) by (unfold whole_seconds; apply Z.div_pos; lia).
  assert (Hsum : float_plus t n = binary64 (t + n * second)).
  { unfold float_plus. rewrite float_of_int_whole by lia. reflexivity. }
  assert (Hb : (whole_seconds t + n) * second <= float_plus t n
               <= (whole_seconds t + n + 1) * second).
  { rewrite Hsum. apply binary64_between; [lia|lia|nia]. }
  split; [exact Hsum|]. split; [exact Hb|].
  set (a := whole_seconds t + n) in *.
  unfold whole_seconds. split.
  - apply Z.div_le_lower_bound; lia.
  - apply Z.div_le_upper_bound; lia.
Qed.

(** A sum of whole seconds is exact. *)
Lemma float_plus_whole (m n : Z) :
  0 <= m -> 0 <= n -> m + n < 2 ^ 53 -> float_plus (m * second) n = (m + n) * second.
Proof.
  intros Hm Hn Hlt. unfold float_plus. rewrite float_of_int_whole by lia.
  replace (m * second + n * second) with ((m + n) * second) by lia.
  pose proof (binary64_between ((m + n) * second) (m + n) (m + n)). lia.
Qed.

(** ** The card-exchange turn *)

Section Turn.
Context `{Collaborators}.

Lemma received_outcome_raises r e : received_outcome r = Raise e -> protocol_failure e.
Proof. destruct r; simpl; intros [= <-]; exact I. Qed.

Lemma get_player_discard_run player timeout_epoch w :
  _get_player_discard player timeout_epoch w =
  (fst (asked player timeout_epoch (table w)),
   {| table := with_clock (snd (asked player timeout_epoch (table w))) (table w);
      trace := trace w ++ [RecvMessage player timeout_epoch] |}).
Proof.
  unfold _get_player_discard, asked, recv, bind, emit, gets, set_clock, modify, lift. simpl.
  destruct (recv_message player timeout_epoch (clock (table w))) as [r later]. simpl.
  destruct (received_outcome r); reflexivity.
Qed.

Lemma asked_raises player timeout_epoch t e :
  fst (asked player timeout_epoch t) = Raise e -> protocol_failure e.
Proof.
  unfold asked. destruct (recv_message _ _ _) as [r later]. simpl. intros He.
  apply obind_raise in He as [He | (m & _ & He)].
  - eapply received_outcome_raises; eauto.
  - apply parse_discard_raises in He as (a & d & ->). exact I.
Qed.

Lemma change_cards_turn_run player w :
  change_cards_turn player w =
  let w2 := {| table := with_clock (snd (asked player (enforced (table w)) (table w))) (table w);
               trace := trace w ++
                 [Dispatch (ChangeCardsAction player CHANGE_CARDS_TIMEOUT (advertised (table w)));
                  RecvMessage player (enforced (table w))] |} in
  match fst (asked player (enforced (table w)) (table w)) with
  | Return discard => exchange player discard w2
  | Raise e =>
      match player_failure player e with
      | Some h => h w2
      | None => (Raise e, w2)
      end
  end.
Proof.
  unfold change_cards_turn, try_except_else, change_cards_action_event,
    bind at 1 2, gets at 1, dispatch, emit at 1.
  cbv beta iota. rewrite get_player_discard_run. cbn [table trace fst snd].
  rewrite <- app_assoc. unfold advertised, enforced, deadline. reflexivity.
Qed.

Lemma exchange_run player discard w :
  exchange player discard w =
  (Return tt, {| table := exchanged player discard (table w);
                 trace := trace w ++ exchange_trace player discard (table w) |}).
Proof.
  unfold exchange, exchange_trace, exchanged. destruct discard as [|c discard].
  - destruct w; reflexivity.
  - run_engine.
    destruct (pop_cards (length (c :: discard)) (deck (table w))) as [new_cards d'].
    run_engine. rewrite <- app_assoc. reflexivity.
Qed.

Lemma failure_run player e :
  protocol_failure e ->
  exists h, player_failure player e = Some h /\
    forall w, h w =
      (Return tt,
       {| table := with_players (remove player (players (table w))) (table w);
          trace := trace w ++ [SendMessage player (error_notice e);
                               Dispatch (DeadPlayer player)] |}).
Proof.
  intros He. destruct e; try (destruct He); simpl; eexists; (split; [reflexivity|]);
    intros w; run_engine; rewrite <- app_assoc; reflexivity.
Qed.

End Turn.

Section Exchange.
Context `{Collaborators}.

Lemma get_player_discard_outcome player timeout_epoch w :
  fst (_get_player_discard player timeout_epoch w) = fst (asked player timeout_epoch (table w)).
Proof. rewrite get_player_discard_run. reflexivity. Qed.

Lemma remove_not_active player gp :
  player ∉ map player_id (active (remove player gp)).
Proof.
  unfold active, remove, update_player. induction gp as [|p gp IH]; simpl.
  - apply not_elem_of_nil.
  - destruct (String.eqb_spec (player_id p) player) as [Heq|Hne].
    + rewrite filter_cons_False; [exact IH | simpl; congruence].
    + destruct (is_active p) eqn:Ha.
      * rewrite filter_cons_True by done. simpl. rewrite not_elem_of_cons. auto.
      * rewrite filter_cons_False; [exact IH | congruence].
Qed.

Lemma change_cards_turn_returns player w : fst (change_cards_turn player w) = Return tt.
Proof.
  rewrite change_cards_turn_run. cbv zeta.
  destruct (fst (asked player (enforced (table w)) (table w))) as [discard|e] eqn:E.
  - rewrite exchange_run. reflexivity.
  - apply asked_raises in E. destruct (failure_run player e E) as (h & -> & Hh).
    rewrite Hh. reflexivity.
Qed.

Lemma for_each_returns {A} (l : list A) (body : A -> Engine unit) :
  (forall x w, fst (body x w) = Return tt) ->
  forall w, fst (for_each l body w) = Return tt.
Proof.
  intros Hb. induction l as [|x l IH]; intros w; simpl; [reflexivity|].
  unfold bind. specialize (Hb x w). destruct (body x w) as [r w']. simpl in Hb. subst r.
  apply IH.
Qed.

(** C1. A turn of the card-exchange round whose request fails, with a
    channel failure, a malformed message or a timeout, sends the player an
    error notice, then dispatches the dead-player event and removes the
    player from the active roster, in this order; the turn returns, the
    loop goes on with the next player of the rotation, and the round as a
    whole never raises. *)
Theorem failed_turn_eliminates_and_continues (player : Player) (w : World) (e : Exn) :
  fst (_get_player_discard (player_id player) (enforced (table w)) w) = Raise e ->
  protocol_failure e /\
  error_notice e !! "message_type"%string = Some (PyStr "error") /\
  exists later w',
    change_cards_turn (player_id player) w = (Return tt, w') /\
    table w' = with_players (remove (player_id player) (players (table w)))
                            (with_clock later (table w)) /\
    trace w' = trace w ++
      [Dispatch (ChangeCardsAction (player_id player) CHANGE_CARDS_TIMEOUT (advertised (table w)));
       RecvMessage (player_id player) (enforced (table w));
       SendMessage (player_id player) (error_notice e);
       Dispatch (DeadPlayer (player_id player))] /\
    (player_id player ∉ map player_id (active (players (table w')))) /\
    (forall rest,
       for_each (player :: rest) (fun p => change_cards_turn (player_id p)) w =
       for_each rest (fun p => change_cards_turn (player_id p)) w') /\
    (forall dealer_id w0, fst (_change_cards_round dealer_id w0) = Return tt).
Proof.
  intros He. rewrite get_player_discard_outcome in He.
  pose proof (asked_raises _ _ _ _ He) as Hp.
  split; [exact Hp|]. split; [reflexivity|].
  destruct (failure_run (player_id player) e Hp) as (h & Hh & Hrun).
  pose proof (change_cards_turn_run (player_id player) w) as Hturn.
  cbv zeta in Hturn. rewrite He, Hh, Hrun in Hturn. cbn [table trace] in Hturn.
  rewrite <- app_assoc in Hturn. cbn [app] in Hturn.
  eexists _, _. split; [exact Hturn|].
  split; [reflexivity|]. split; [reflexivity|]. split; [|split].
  - cbn [table players with_players]. apply remove_not_active.
  - intros rest. cbn [for_each]. unfold bind at 1. rewrite Hturn. reflexivity.
  - intros dealer_id w0. unfold _change_cards_round, bind, gets.
    apply for_each_returns. intros x w1. apply change_cards_turn_returns.
Qed.

(** C8, amended.  The player-action event of a turn carries the timeout
    of 30 and the date of the deadline, which is the start time plus 30
    cut to the whole second; the receive that follows is given the deadline
    itself plus the tolerance of 2, and nothing else in the turn announces
    a deadline or receives.  For a clock between the epoch and 2^52
    seconds the enforced deadline is at least 2 and at most 3 seconds past
    the advertised one, and exactly 2 when the turn starts on a whole
    second. *)
Theorem enforced_deadline_is_two_to_three_past_advertised (player : PlayerId) (w : World) :
  0 <= clock (table w) < 2 ^ 52 * second ->
  let t := table w in
  (exists rest,
     trace (snd (change_cards_turn player w)) =
       trace w ++
       Dispatch (ChangeCardsAction player 30 (advertised t)) ::
       RecvMessage player (enforced t) :: rest /\
     Forall (fun a => match a with
                      | Dispatch (ChangeCardsAction _ _ _) | RecvMessage _ _ => False
                      | _ => True
                      end) rest) /\
  deadline t = binary64 (clock t + 30 * second) /\
  enforced t = binary64 (deadline t + 2 * second) /\
  advertised t = strftime (gmtime (advertised_instant t)) /\
  advertised_instant t <= deadline t < advertised_instant t + second /\
  (whole_seconds (clock t) + 30) * second <= advertised_instant t
    <= (whole_seconds (clock t) + 31) * second /\
  advertised_instant t + 2 * second <= enforced t <= advertised_instant t + 3 * second /\
  (forall n, clock t = n * second -> exactly_two_apart t).
Proof.
  intros Hclock. cbv zeta. set (t := table w) in *. destruct Hclock as [Hlo Hhi].
  pose proof second_pos as Hs.
  assert (Hnow : 0 <= whole_seconds (clock t) < 2 ^ 52).
  { unfold whole_seconds. split; [apply Z.div_pos; lia|].
    apply Z.div_lt_upper_bound; lia. }
  destruct (float_plus_between (clock t) 30) as (Hd & Hdb & Hdw); [lia|lia|lia|].
  change (float_plus (clock t) 30) with (deadline t) in Hd, Hdb, Hdw.
  assert (Hd0 : 0 <= deadline t) by nia.
  destruct (float_plus_between (deadline t) 2) as (He & Heb & _); [lia|lia|lia|].
  change (float_plus (deadline t) 2) with (enforced t) in He, Heb.
  pose proof (whole_seconds_bounds (deadline t)) as Hcut.
  split; [|split; [exact Hd|split; [exact He|split; [|split; [|split; [|split]]]]]].
  - subst t. rewrite change_cards_turn_run. cbv zeta.
    change CHANGE_CARDS_TIMEOUT with 30.
    destruct (fst (asked player _ (table w))) as [discard|e] eqn:E.
    + rewrite exchange_run. cbn [snd trace table].
      eexists. split; [rewrite <- app_assoc; reflexivity|].
      unfold exchange_trace. destruct discard; repeat constructor.
    + apply asked_raises in E. destruct (failure_run player e E) as (h & -> & Hh).
      rewrite Hh. cbn [snd trace table].
      eexists. split; [rewrite <- app_assoc; reflexivity|]. repeat constructor.
  - unfold advertised, advertised_instant. rewrite gmtime_whole_seconds. reflexivity.
  - unfold advertised_instant. lia.
  - unfold advertised_instant. nia.
  - unfold advertised_instant. lia.
  - intros n Hn. unfold exactly_two_apart, advertised_instant.
    assert (Hn0 : 0 <= n < 2 ^ 52) by (rewrite Hn in Hlo, Hhi; nia).
    assert (Hdn : deadline t = (n + 30) * second).
    { unfold deadline. rewrite Hn. apply float_plus_whole; lia. }
    assert (Hen : enforced t = (n + 30 + 2) * second).
    { unfold enforced. rewrite Hdn. apply float_plus_whole; lia. }
    rewrite Hen, Hdn, Hn, whole_seconds_whole. lia.
Qed.

(** C7. When the validated discard list is empty, the turn leaves the
    deck, the hands and the roster as they were, sends no hand update to
    the player, and still dispatches the change-cards event with
    [num_cards] 0. *)
Theorem empty_discard_changes_nothing (player : PlayerId) (w : World) :
  fst (_get_player_discard player (enforced (table w)) w) = Return [] ->
  exists w',
    change_cards_turn player w = (Return tt, w') /\
    deck (table w') = deck (table w) /\
    scores (table w') = scores (table w) /\
    players (table w') = players (table w) /\
    trace w' = trace w ++
      [Dispatch (ChangeCardsAction player CHANGE_CARDS_TIMEOUT (advertised (table w)));
       RecvMessage player (enforced (table w));
       Dispatch (ChangeCards player 0)].
Proof.
  intros He. rewrite get_player_discard_outcome in He.
  eexists. split.
  - rewrite change_cards_turn_run. cbv zeta. rewrite He, exchange_run. reflexivity.
  - cbn. rewrite <- app_assoc. auto.
Qed.

(** C5. A change-cards message whose references are still more than 4
    after the removal of duplicates is rejected with the format error of
    attribute "cards" and description "Maximum number of cards exceeded";
    the request and the turn it ends leave the deck and every hand as they
    were. *)
Theorem too_many_references_are_rejected (player : PlayerId) (w : World)
    (message : gmap string PyValue) (v : PyValue) (keys : list PyValue) :
  fst (recv_message player (enforced (table w)) (clock (table w))) = Message message ->
  validate_message_type message "change-cards" = Return tt ->
  message !! "cards"%string = Some v ->
  py_list_set v = Return keys ->
  (4 < length keys)%nat ->
  let request := _get_player_discard player (enforced (table w)) w in
  let turn := change_cards_turn player w in
  fst request = Raise too_many_cards /\
  deck (table (snd request)) = deck (table w) /\
  scores (table (snd request)) = scores (table w) /\
  fst turn = Return tt /\
  deck (table (snd turn)) = deck (table w) /\
  scores (table (snd turn)) = scores (table w) /\
  Forall (fun a => match a with SendPlayerScore _ _ => False | _ => True end)
         (drop (length (trace w)) (trace (snd turn))).
Proof.
  intros Hrecv Hv Hc Hk Hlen request turn.
  assert (Ha : fst (asked player (enforced (table w)) (table w)) = Raise too_many_cards).
  { unfold asked. destruct (recv_message _ _ _) as [r later]. simpl in Hrecv. subst r.
    simpl. rewrite (parse_discard_cards _ _ _ Hv Hc).
    unfold resolve_discard. rewrite Hk. simpl.
    apply Nat.ltb_lt in Hlen. rewrite Hlen. reflexivity. }
  subst request turn. rewrite get_player_discard_run, change_cards_turn_run. cbv zeta.
  rewrite Ha. cbn [fst snd table trace player_failure too_many_cards].
  run_engine. rewrite <- !app_assoc, drop_app_length.
  repeat split; repeat constructor.
Qed.

End Exchange.

(** ** Blind collection *)

Section Blinds.
Context `{Collaborators}.

Lemma with_players_same (w : World) :
  {| table := with_players (players (table w)) (table w); trace := trace w |} = w.
Proof. destruct w as [[gp d sc p c] tr]. reflexivity. Qed.

Lemma kick_loop blind l w :
  for_each l (fun player =>
    if money player <? blind then
      dispatch (DeadPlayer (player_id player)) ;;;
      set_players (remove (player_id player))
    else ret tt) w =
  (Return tt,
   {| table := with_players (fold_left (kick_step blind) l (players (table w))) (table w);
      trace := trace w ++ map dead_player_event (filter (fun p => money p < blind) l) |}).
Proof.
  revert w. induction l as [|q l IH]; intros w.
  - simpl. rewrite app_nil_r, with_players_same. reflexivity.
  - cbn [for_each fold_left]. unfold bind at 1. unfold kick_step at 2.
    destruct (Z.ltb_spec (money q) blind) as [Hlt|Hge].
    + run_engine. rewrite IH. cbn [table trace players with_players].
      rewrite filter_cons_True by done. cbn [map]. rewrite <- app_assoc. reflexivity.
    + run_engine. rewrite IH. rewrite filter_cons_False by lia. reflexivity.
Qed.

Lemma take_blinds_run blind l bets w :
  take_blinds blind l bets w =
  (Return (fold_left (fun b q => <[player_id q := blind]> b) l bets),
   {| table := with_players (fold_left (take_step blind) l (players (table w))) (table w);
      trace := trace w |}).
Proof.
  revert bets w. induction l as [|q l IH]; intros bets w.
  - simpl. rewrite with_players_same. reflexivity.
  - cbn [take_blinds fold_left]. run_engine. rewrite IH. reflexivity.
Qed.

(** *** The two loops as maps over the roster *)

Lemma kick_fold blind l gp :
  fold_left (kick_step blind) l gp =
  map (fun p => if existsb (fun q => (money q <? blind) && same_id p q) l
                then deactivate p else p) gp.
Proof.
  revert gp. induction l as [|q l IH]; intros gp; cbn [fold_left existsb].
  - symmetry. apply map_id.
  - rewrite IH. unfold kick_step, remove, update_player, same_id.
    destruct (money q <? blind); cbn [andb orb].
    + rewrite map_map. apply map_ext. intros p.
      destruct (String.eqb (player_id p) (player_id q)); cbn [player_id deactivate];
        [|reflexivity].
      destruct (existsb _ l); reflexivity.
    + reflexivity.
Qed.

Lemma existsb_same_id_absent (P : Player -> bool) p l :
  player_id p ∉ map player_id l -> existsb (fun q => P q && same_id p q) l = false.
Proof.
  induction l as [|q l IH]; cbn [existsb map]; [reflexivity|].
  rewrite not_elem_of_cons. intros [Hne Hl]. rewrite (IH Hl). unfold same_id.
  destruct (String.eqb_spec (player_id p) (player_id q)); [contradiction|].
  rewrite andb_false_r. reflexivity.
Qed.

Lemma take_fold blind l gp :
  NoDup (map player_id l) ->
  fold_left (take_step blind) l gp =
  map (fun p => if existsb (fun q => true && same_id p q) l then debit blind p else p) gp.
Proof.
  revert gp. induction l as [|q l IH]; intros gp Hnd; cbn [fold_left existsb].
  - symmetry. apply map_id.
  - cbn [map] in Hnd. apply NoDup_cons in Hnd as [Hq Hnd].
    rewrite (IH _ Hnd). unfold take_step, take_money, update_player.
    rewrite map_map. apply map_ext. intros p. unfold same_id at 2.
    destruct (String.eqb_spec (player_id p) (player_id q)) as [Heq|Hne]; cbn [andb orb].
    + pose proof (existsb_same_id_absent (fun _ => true) (debit blind p) l) as Ha.
      cbn [andb player_id debit] in Ha. rewrite Ha; [reflexivity|].
      rewrite Heq. exact Hq.
    + reflexivity.
Qed.

Lemma NoDup_ids_eq (gp : list Player) p q :
  NoDup (map player_id gp) -> p ∈ gp -> q ∈ gp -> player_id p = player_id q -> p = q.
Proof.
  induction gp as [|x gp IH]; [intros _ Hp; inversion Hp|].
  cbn [map]. rewrite NoDup_cons, !elem_of_cons. intros [Hx Hnd] [-> | Hp] [-> | Hq] Heq.
  - reflexivity.
  - exfalso. apply Hx. rewrite Heq. apply list_elem_of_fmap_2. exact Hq.
  - exfalso. apply Hx. rewrite <- Heq. apply list_elem_of_fmap_2. exact Hp.
  - auto.
Qed.

Lemma elem_of_active p gp : p ∈ active gp <-> p ∈ gp /\ is_active p = true.
Proof. unfold active. rewrite list_elem_of_filter. tauto. Qed.

Lemma existsb_same_id_active (P : Player -> bool) gp p :
  NoDup (map player_id gp) -> p ∈ gp ->
  existsb (fun q => P q && same_id p q) (active gp) = is_active p && P p.
Proof.
  intros Hnd Hp. apply eq_true_iff_eq. rewrite existsb_exists, andb_true_iff. split.
  - intros (q & Hq & Hpq). apply andb_true_iff in Hpq as [HP Hid].
    apply list_elem_of_In, elem_of_active in Hq as [Hq Ha].
    apply String.eqb_eq in Hid.
    assert (p = q) as -> by (eapply NoDup_ids_eq; eauto). auto.
  - intros [Ha HP]. exists p. split.
    + apply list_elem_of_In, elem_of_active. auto.
    + rewrite HP. unfold same_id. rewrite String.eqb_refl. reflexivity.
Qed.

Lemma kick_all blind gp :
  NoDup (map player_id gp) -> fold_left (kick_step blind) (active gp) gp = kicked blind gp.
Proof.
  intros Hnd. rewrite kick_fold. apply map_ext_in. intros p Hp.
  rewrite (existsb_same_id_active (fun q => money q <? blind)); [reflexivity|exact Hnd|].
  by apply list_elem_of_In.
Qed.

Lemma ids_active_sublist gp : map player_id (active gp) `sublist_of` map player_id gp.
Proof. apply fmap_sublist, sublist_filter. Qed.

Lemma take_all blind gp :
  NoDup (map player_id gp) -> fold_left (take_step blind) (active gp) gp = debited blind gp.
Proof.
  intros Hnd. rewrite take_fold by (eapply sublist_NoDup; [exact Hnd|apply ids_active_sublist]).
  apply map_ext_in. intros p Hp.
  rewrite (existsb_same_id_active (fun _ => true)), ?andb_true_r;
    [reflexivity|exact Hnd|by apply list_elem_of_In].
Qed.

Lemma ids_kicked blind gp : map player_id (kicked blind gp) = map player_id gp.
Proof.
  unfold kicked. rewrite map_map. apply map_ext. intros p.
  destruct (is_active p && (money p <? blind)); reflexivity.
Qed.

Lemma active_kicked blind gp :
  active (kicked blind gp) = filter (fun p => blind <= money p) (active gp).
Proof.
  unfold active, kicked. induction gp as [|p gp IH]; [reflexivity|]. cbn [map].
  destruct (is_active p) eqn:Ha; cbn [andb].
  - rewrite (filter_cons_True _ p gp) by done.
    destruct (Z.ltb_spec (money p) blind) as [Hlt|Hge].
    + rewrite filter_cons_False by (simpl; congruence).
      rewrite filter_cons_False by lia. exact IH.
    + rewrite !filter_cons_True by done. rewrite IH. reflexivity.
  - rewrite !filter_cons_False by congruence. exact IH.
Qed.

Lemma active_debited blind gp : active (debited blind gp) = map (debit blind) (active gp).
Proof.
  unfold active, debited. induction gp as [|p gp IH]; [reflexivity|]. cbn [map].
  destruct (is_active p) eqn:Ha.
  - rewrite !filter_cons_True by done. cbn [map]. rewrite IH. reflexivity.
  - rewrite !filter_cons_False by congruence. exact IH.
Qed.

Lemma bets_fold (blind : Z) l (bets : gmap PlayerId Z) pid :
  fold_left (fun b q => <[player_id q := blind]> b) l bets !! pid =
  if bool_decide (pid ∈ map player_id l) then Some blind else bets !! pid.
Proof.
  revert bets. induction l as [|q l IH]; intros bets; cbn [fold_left map].
  - rewrite bool_decide_eq_false_2 by apply not_elem_of_nil. reflexivity.
  - rewrite IH. destruct (decide (pid ∈ map player_id l)) as [Hin|Hnin].
    + rewrite !bool_decide_eq_true_2; [reflexivity| |assumption]. by right.
    + rewrite (bool_decide_eq_false_2 _ Hnin).
      destruct (decide (pid = player_id q)) as [->|Hne].
      * rewrite lookup_insert_eq, bool_decide_eq_true_2; [reflexivity|by left].
      * rewrite lookup_insert_ne by congruence.
        rewrite bool_decide_eq_false_2; [reflexivity|].
        rewrite not_elem_of_cons. auto.
Qed.

Lemma collect_blinds_run blind w :
  NoDup (map player_id (players (table w))) ->
  let gp := players (table w) in
  let rich := filter (fun p => blind <= money p) (active gp) in
  let tr := trace w ++ map dead_player_event (filter (fun p => money p < blind) (active gp)) in
  _collect_blinds blind w =
  if (length rich <? 2)%nat then
    (Raise (GameError "Not enough players"),
     {| table := with_players (kicked blind gp) (table w); trace := tr |})
  else
    (Return (fold_left (fun b q => <[player_id q := blind]> b) rich ∅),
     {| table := with_players (debited blind (kicked blind gp)) (table w); trace := tr |}).
Proof.
  intros Hnd. cbv zeta. unfold _collect_blinds, kick_out_poor.
  unfold bind at 1 2. unfold gets at 1. rewrite kick_loop.
  rewrite (kick_all _ _ Hnd). run_engine. unfold count_active.
  rewrite <- !active_kicked.
  destruct (length (active (kicked blind (players (table w)))) <? 2)%nat; [reflexivity|].
  rewrite take_blinds_run. cbn [table trace players with_players].
  rewrite take_all by (rewrite ids_kicked; exact Hnd). reflexivity.
Qed.

Lemma create_hand_returns w : create_hand w = (Return tt, snd (create_hand w)).
Proof. reflexivity. Qed.

Lemma failed_blinds_end_the_hand blind dealer_id w e :
  fst (_collect_blinds blind (snd (create_hand w))) = Raise e ->
  play_hand blind dealer_id w = (Raise e, snd (_collect_blinds blind (snd (create_hand w)))).
Proof.
  intros He. unfold play_hand, open_hand. unfold bind at 1 2 3 4.
  rewrite create_hand_returns. cbv iota beta. cbn [snd].
  destruct (_collect_blinds blind (snd (create_hand w))) as [[bets|e'] w']; simpl in He.
  - discriminate.
  - injection He as ->. reflexivity.
Qed.

(** C6. Blind collection, on a roster whose ids are distinct: a dead-player
    event is dispatched for every active player whose money is below the
    blind, in seating order, and these players are no longer active; if
    fewer than two active players are left, [GameError] is raised, and
    [play_hand] ends with it; otherwise the players left active are the
    former ones that could pay, each debited the blind, and [bets] maps
    their ids, and no other, to the blind. *)
Theorem blinds_are_collected_or_the_hand_aborts (blind : Z) (w : World) :
  let gp := players (table w) in
  let poor := filter (fun p => money p < blind) (active gp) in
  let rich := filter (fun p => blind <= money p) (active gp) in
  let w' := snd (_collect_blinds blind w) in
  NoDup (map player_id gp) ->
  trace w' = trace w ++ map (fun p => Dispatch (DeadPlayer (player_id p))) poor /\
  (forall p, p ∈ poor -> player_id p ∉ map player_id (active (players (table w')))) /\
  ((length rich < 2)%nat ->
     fst (_collect_blinds blind w) = Raise (GameError "Not enough players")) /\
  ((2 <= length rich)%nat ->
     exists bets,
       fst (_collect_blinds blind w) = Return bets /\
       active (players (table w')) = map (debit blind) rich /\
       forall pid, bets !! pid =
                   if bool_decide (pid ∈ map player_id rich) then Some blind else None) /\
  (forall dealer_id w0 e,
     fst (_collect_blinds blind (snd (create_hand w0))) = Raise e ->
     play_hand blind dealer_id w0 =
     (Raise e, snd (_collect_blinds blind (snd (create_hand w0))))).
Proof.
  intros gp poor rich w' Hnd. subst w'.
  pose proof (collect_blinds_run blind w Hnd) as Hrun. cbv zeta in Hrun.
  fold gp in Hrun. fold rich in Hrun. fold poor in Hrun.
  assert (Hids : map player_id (active (players (table (snd (_collect_blinds blind w)))))
                 = map player_id rich).
  { rewrite Hrun. destruct (length rich <? 2)%nat; cbn [snd table players with_players].
    - rewrite active_kicked. reflexivity.
    - rewrite active_debited, active_kicked. fold rich.
      rewrite map_map. reflexivity. }
  split; [|split; [|split; [|split]]].
  - rewrite Hrun. destruct (length rich <? 2)%nat; reflexivity.
  - intros p Hp. rewrite Hids. intros Hin.
    apply list_elem_of_fmap in Hin as (q & Heq & Hq).
    apply list_elem_of_filter in Hp as [Hlt Hp]. apply list_elem_of_filter in Hq as [Hge Hq].
    apply elem_of_active in Hp as [Hp _]. apply elem_of_active in Hq as [Hq _].
    assert (p = q) as -> by (eapply NoDup_ids_eq; eauto). lia.
  - intros Hlen. rewrite Hrun. apply Nat.ltb_lt in Hlen. rewrite Hlen. reflexivity.
  - intros Hlen. rewrite Hrun.
    destruct (Nat.ltb_spec (length rich) 2) as [Hlt|_]; [lia|].
    eexists. split; [reflexivity|]. cbn [snd table players with_players]. split.
    + rewrite active_debited, active_kicked. reflexivity.
    + intros pid. rewrite bets_fold, lookup_empty. reflexivity.
  - intros dealer_id w0 e. apply failed_blinds_end_the_hand.
Qed.

End Blinds.

(** ** The hand life cycle *)

Section Hand.
Context `{Collaborators}.

Lemma runs_weaken {A} (m : Engine A) (P Q : Outcome A -> Prop) :
  runs m P -> (forall r, P r -> Q r) -> runs m Q.
Proof. intros Hm HPQ w. destruct (Hm w) as (tr & ? & ? & ?). eauto 6. Qed.

Lemma runs_bind {A B} (m : Engine A) (k : A -> Engine B) P Q :
  runs m P ->
  (forall a, P (Return a) -> runs (k a) Q) ->
  (forall e, P (Raise e) -> Q (Raise e)) ->
  runs (bind m k) Q.
Proof.
  intros Hm Hk He w. unfold bind. destruct (Hm w) as (tr & Htr & Hq & HP).
  destruct (m w) as [[a|e] w1]; cbn [fst snd] in *.
  - destruct (Hk a HP w1) as (tr' & Htr' & Hq' & HQ).
    exists (tr ++ tr'). rewrite Htr', Htr, app_assoc, forallb_app, Hq, Hq'. auto.
  - exists tr. auto.
Qed.

Lemma runs_gets {A B} (f : Table Pots -> A) (k : A -> Engine B) Q :
  (forall a, runs (k a) Q) -> runs (bind (gets f) k) Q.
Proof. intros Hk w. unfold bind, gets. apply Hk. Qed.

Lemma runs_ret {A} (a : A) (Q : Outcome A -> Prop) : Q (Return a) -> runs (ret a) Q.
Proof. intros HQ w. exists []. rewrite app_nil_r. auto. Qed.

Lemma runs_raise {A} e (Q : Outcome A -> Prop) : Q (Raise e) -> runs (raise e) Q.
Proof. intros HQ w. exists []. rewrite app_nil_r. auto. Qed.


Lemma runs_emit a : quiet a = true -> runs (emit a) (fun r => r = Return tt).
Proof. intros Ha w. exists [a]. cbn. rewrite Ha. auto. Qed.

Lemma forallb_quiet_inside (out : list Output) :
  forallb quiet (map Inside out) = true.
Proof. induction out as [|o out IH]; [reflexivity | exact IH]. Qed.

Lemma runs_call r f :
  quiet (Call r) = true -> runs (call r f) (fun r => r = Return tt).
Proof.
  intros Hr w. unfold call. destruct (f (table w)) as [t out].
  exists (Call r :: map Inside out). cbn [snd fst trace forallb].
  rewrite Hr, forallb_quiet_inside. auto.
Qed.

(** A step that returns or ends the game, followed by the rest. *)
Lemma runs_seq (m k : Engine unit) (Q : Outcome unit -> Prop) :
  runs m may_end -> runs k Q -> Q (Raise EndGameException) -> runs (m ;;; k) Q.
Proof.
  intros Hm Hk HQ. apply (runs_bind m _ may_end); [exact Hm|auto|].
  intros e [He|He]; congruence.
Qed.

Lemma runs_returns_may_end (m : Engine unit) :
  runs m (fun r => r = Return tt) -> runs m may_end.
Proof. intros Hm. apply (runs_weaken _ _ _ Hm). unfold may_end. auto. Qed.

Lemma runs_detect_game_over : runs detect_game_over may_end.
Proof.
  unfold detect_game_over. apply runs_gets. intros n.
  destruct (n <? 2)%nat; [apply runs_raise|apply runs_ret]; unfold may_end; auto.
Qed.

Lemma runs_for_each {A} (l : list A) (body : A -> Engine unit) :
  (forall x, runs (body x) (fun r => r = Return tt)) ->
  runs (for_each l body) (fun r => r = Return tt).
Proof.
  intros Hb. induction l as [|x l IH]; cbn [for_each].
  - by apply runs_ret.
  - apply (runs_bind _ _ (fun r => r = Return tt)); [apply Hb|auto|discriminate].
Qed.

Lemma runs_change_cards_turn player :
  runs (change_cards_turn player) (fun r => r = Return tt).
Proof.
  intros w. rewrite change_cards_turn_run. cbv zeta.
  destruct (fst (asked player (enforced (table w)) (table w))) as [discard|e] eqn:E.
  - rewrite exchange_run. cbn [fst snd trace]. eexists. rewrite <- app_assoc.
    split; [reflexivity|]. split; [|reflexivity].
    unfold exchange_trace. destruct discard; reflexivity.
  - apply asked_raises in E. destruct (failure_run player e E) as (h & -> & Hh).
    rewrite Hh. cbn [fst snd trace]. eexists. rewrite <- app_assoc.
    split; [reflexivity|]. split; reflexivity.
Qed.

Lemma runs_change_cards_round dealer_id :
  runs (_change_cards_round dealer_id) (fun r => r = Return tt).
Proof.
  unfold _change_cards_round. apply runs_gets. intros gp.
  apply runs_for_each. intros p. apply runs_change_cards_turn.
Qed.

(** The [try] block ends with [EndGameException], whatever happens. *)
Lemma runs_hand_phases dealer_id :
  runs (hand_phases dealer_id) (fun r => r = Raise EndGameException).
Proof.
  unfold hand_phases, _game_over_detection.
  repeat first
    [ apply runs_raise; reflexivity
    | apply runs_detect_game_over
    | apply runs_returns_may_end;
      first [ apply runs_call; reflexivity
            | apply runs_emit; reflexivity
            | apply runs_change_cards_round ]
    | apply runs_seq; [| |reflexivity]
    | apply runs_gets; intros n ].
  intros w. exists []. rewrite app_nil_r.
  destruct (_ <? 2)%nat; cbn; unfold may_end; auto.
Qed.






Lemma open_hand_returns blind dealer_id w bets :
  fst (_collect_blinds blind (snd (create_hand w))) = Return bets ->
  fst (open_hand blind dealer_id w) = Return tt.
Proof.
  intros Hb. unfold open_hand. unfold bind at 1 2. rewrite create_hand_returns.
  cbv iota beta. cbn [snd].
  destruct (_collect_blinds blind (snd (create_hand w))) as [[b|e] w1]; [|discriminate].
  reflexivity.
Qed.

Lemma end_game_run w :
  exists h, end_game EndGameException = Some h /\
    h w = (Return tt,
           {| table := fst (_detect_winners (shown_table (table w)));
              trace := trace w ++ shown (table w) ++
                       Call DetectWinners ::
                       map Inside (snd (_detect_winners (shown_table (table w)))) ++
                       [Sleep WAIT_AFTER_HAND] |}).
Proof.
  eexists. split; [reflexivity|]. unfold shown, shown_table. run_engine.
  destruct (1 <? count_active (players (table w)))%nat; run_engine.
  - destruct (_showdown (table w)) as [t1 out1]. run_engine.
    destruct (_detect_winners t1) as [t2 out2]. run_engine.
    rewrite <- !app_assoc. reflexivity.
  - destruct (_detect_winners (table w)) as [t2 out2]. run_engine.
    rewrite <- !app_assoc. reflexivity.
Qed.








End Hand.

(** ** The engine on a table of two players *)

(** C4. At the references 0 and -5 the exchange succeeds, and the hand it
    leaves has six cards: the first card is named twice, two cards are
    drawn, one card leaves the hand. *)
Theorem aliased_references_leave_six_cards :
  let w := dealt aliasing in
  let turn := @change_cards_turn (scripted cards24 aliasing) "alice" w in
  player_cards "alice" (scores (table w)) =
    [card 14 3; card 14 2; card 14 1; card 14 0; card 13 3] /\
  fst (@_get_player_discard (scripted cards24 aliasing) "alice" (enforced (table w)) w) =
    Return [card 14 3; card 14 3] /\
  fst turn = Return tt /\
  player_cards "alice" (scores (table (snd turn))) =
    [card 14 2; card 14 1; card 14 0; card 13 3; card 12 1; card 12 0] /\
  length (player_cards "alice" (scores (table (snd turn)))) = 6%nat.
Proof. vm_compute. repeat split. Qed.

(** C3. At the references 0 and -5 two cards are drawn and two are
    returned, the same card twice, so the deck keeps its 14 cards while
    the hands grow from 10 cards to 11: the total is not kept. *)
Theorem aliased_references_add_a_card :
  let w := dealt aliasing in
  let turn := @change_cards_turn (scripted cards24 aliasing) "alice" w in
  length (pool (deck (table w))) = 14%nat /\
  length (pool (deck (table (snd turn)))) = 12%nat /\
  discards (deck (table (snd turn))) = [card 14 3; card 14 3] /\
  total_cards (table w) = 24%nat /\
  total_cards (table (snd turn)) = 25%nat /\
  total_cards
    (table (snd (@_change_cards_round (scripted cards24 aliasing) "bob" w))) = 26%nat.
Proof. vm_compute. repeat split. Qed.

(** ** The exchange when no card is named twice *)

Lemma pop_cards_length n d :
  (n <= deck_size d)%nat -> length (fst (pop_cards n d)) = n.
Proof.
  unfold pop_cards, deck_size. intros Hn.
  destruct (Nat.leb_spec n (length (pool d))) as [Hle|Hgt]; cbn [fst].
  - apply length_take_le. exact Hle.
  - rewrite length_app, length_take_le by lia. lia.
Qed.

Lemma pop_cards_deck_size n d :
  (n <= deck_size d)%nat -> deck_size (snd (pop_cards n d)) = (deck_size d - n)%nat.
Proof.
  unfold pop_cards, deck_size. intros Hn.
  destruct (Nat.leb_spec n (length (pool d))) as [Hle|Hgt]; cbn [snd pool discards].
  - rewrite length_drop. lia.
  - rewrite length_drop. cbn [length]. lia.
Qed.

Lemma push_cards_deck_size cs d :
  deck_size (push_cards cs d) = (deck_size d + length cs)%nat.
Proof. unfold push_cards, deck_size. cbn [pool discards]. rewrite length_app. lia. Qed.

Lemma kept_cards_length (hand discard : list Card) :
  NoDup hand -> NoDup discard -> (forall c, c ∈ discard -> c ∈ hand) ->
  (length (filter (fun c => card_in c discard = false) hand) + length discard)%nat
  = length hand.
Proof.
  intros Hh Hd Hsub.
  pose proof (filter_app_complement (fun c => card_in c discard = false) hand) as Hsplit.
  apply Permutation_length in Hsplit. rewrite length_app in Hsplit.
  rewrite <- Hsplit. f_equal. symmetry. apply Permutation_length.
  apply NoDup_Permutation; [by apply NoDup_filter|exact Hd|].
  intros c. rewrite list_elem_of_filter. unfold card_in.
  rewrite bool_decide_eq_false. split.
  - intros [Hin _]. by apply dec_stable.
  - intros Hin. auto.
Qed.

(** With a discard list that names no card twice, taken from a hand that
    holds no card twice, and a deck that holds enough cards, the exchange
    keeps the size of the hand and the size of the deck, and touches no
    other hand. *)
Lemma exchange_without_alias `{Collaborators} (player : PlayerId) (discard : list Card)
    (t : Table Pots) :
  NoDup (player_cards player (scores t)) ->
  NoDup discard ->
  (forall c, c ∈ discard -> c ∈ player_cards player (scores t)) ->
  (length discard <= deck_size (deck t))%nat ->
  length (player_cards player (scores (exchanged player discard t)))
  = length (player_cards player (scores t)) /\
  deck_size (deck (exchanged player discard t)) = deck_size (deck t) /\
  forall other, other <> player ->
    player_cards other (scores (exchanged player discard t)) = player_cards other (scores t).
Proof.
  intros Hh Hd Hsub Hn. unfold exchanged. destruct discard as [|c discard]; [auto|].
  pose proof (pop_cards_length _ _ Hn) as Hpop.
  pose proof (pop_cards_deck_size _ _ Hn) as Hsize.
  destruct (pop_cards (length (c :: discard)) (deck t)) as [new_cards d'].
  cbn [fst snd] in Hpop, Hsize. cbn [scores deck with_scores with_deck].
  unfold player_cards at 1, assign_cards. rewrite lookup_insert_eq. cbn [default].
  unfold id. rewrite length_app, Hpop, kept_cards_length by assumption.
  split; [reflexivity|]. split.
  - rewrite push_cards_deck_size, Hsize. lia.
  - intros other Hne. unfold player_cards. rewrite lookup_insert_ne by congruence.
    reflexivity.
Qed.

(** *** References that do not alias *)

Lemma py_eqb_sym a b : py_eqb a b = py_eqb b a.
Proof.
  unfold py_eqb. destruct (py_num a) as [x|] eqn:Ha, (py_num b) as [y|] eqn:Hb;
    try reflexivity.
  - apply eq_true_iff_eq. rewrite !Qeq_bool_iff. split; intros Hq; by symmetry.
  - destruct a, b; try reflexivity; try discriminate. apply String.eqb_sym.
Qed.

Lemma distinct_keys_snoc l x :
  distinct_keys l -> Forall (fun s => py_eqb x s = false) l -> distinct_keys (l ++ [x]).
Proof.
  induction l as [|a l IH]; cbn [distinct_keys app].
  - intros _ _. split; [constructor|exact I].
  - intros [Ha Hl] Hx. apply Forall_cons in Hx as [Hxa Hx]. split.
    + apply Forall_app. split; [exact Ha|].
      constructor; [|constructor]. rewrite py_eqb_sym. exact Hxa.
    + apply IH; assumption.
Qed.

Lemma set_add_distinct seen x : distinct_keys seen -> distinct_keys (set_add seen x).
Proof.
  intros Hs. unfold set_add. destruct (existsb (py_eqb x) seen) eqn:E; [exact Hs|].
  apply distinct_keys_snoc; [exact Hs|].
  apply Forall_forall. intros s Hin.
  destruct (py_eqb x s) eqn:Exs; [|reflexivity].
  assert (existsb (py_eqb x) seen = true); [|congruence].
  apply existsb_exists. exists s. split; [by apply list_elem_of_In|exact Exs].
Qed.

Lemma fold_set_add_distinct items seen :
  distinct_keys seen -> distinct_keys (fold_left set_add items seen).
Proof.
  revert seen. induction items as [|x items IH]; intros seen Hs; cbn [fold_left];
    [exact Hs|].
  apply IH, set_add_distinct, Hs.
Qed.

(** What is left after the removal of duplicates is duplicate free. *)
Lemma py_list_set_distinct v keys : py_list_set v = Return keys -> distinct_keys keys.
Proof.
  unfold py_list_set. destruct (py_iter v) as [items|e]; cbn [obind]; [|discriminate].
  destruct (forallb py_hashable items); [|discriminate].
  intros [= <-]. apply fold_set_add_distinct. exact I.
Qed.

Lemma py_index_same_eqb k1 k2 i :
  py_index k1 = Return i -> py_index k2 = Return i -> py_eqb k1 k2 = true.
Proof.
  intros H1 H2. unfold py_eqb.
  assert (Hn : forall k, py_index k = Return i -> py_num k = Some (inject_Z i)).
  { intros k Hk. destruct k; simpl in Hk; try discriminate; injection Hk as <-; reflexivity. }
  rewrite (Hn _ H1), (Hn _ H2). apply Qeq_bool_iff. reflexivity.
Qed.

Lemma py_getitem_nonnegative {A} (l : list A) k i x :
  py_index k = Return i -> 0 <= i -> py_getitem l k = Return x -> l !! Z.to_nat i = Some x.
Proof.
  intros Hk Hi. unfold py_getitem. rewrite Hk. cbn [obind].
  destruct (Z.ltb_spec i 0) as [?|_]; [lia|].
  destruct (_ || _); [discriminate|].
  destruct (l !! Z.to_nat i); [|discriminate]. intros [= <-]. reflexivity.
Qed.

Lemma comprehension_elem {A B} (f : A -> Outcome B) l ys y :
  comprehension f l = Return ys -> y ∈ ys -> exists x, x ∈ l /\ f x = Return y.
Proof.
  revert ys. induction l as [|x l IH]; intros ys; cbn [comprehension].
  - intros [= <-] Hy. inversion Hy.
  - destruct (f x) as [b|] eqn:Hx; cbn [obind]; [|discriminate].
    destruct (comprehension f l) as [bs|]; cbn [obind]; [|discriminate].
    intros [= <-] Hy. apply elem_of_cons in Hy as [-> | Hy].
    + exists x. split; [by left|exact Hx].
    + destruct (IH bs eq_refl Hy) as (x' & Hin & Hx'). exists x'. split; [by right|exact Hx'].
Qed.

(** References that are all non-negative, into a hand without duplicates,
    name no card twice, and name cards of the hand. *)
Lemma nonnegative_references_do_not_alias (hand : list Card) keys discard :
  NoDup hand ->
  distinct_keys keys ->
  Forall (fun k => exists i, py_index k = Return i /\ 0 <= i) keys ->
  comprehension (py_getitem hand) keys = Return discard ->
  NoDup discard /\ forall c, c ∈ discard -> c ∈ hand.
Proof.
  intros Hh. revert discard. induction keys as [|k keys IH]; intros discard Hd Hk;
    cbn [comprehension].
  - intros [= <-]. split; [constructor|]. intros c Hc. inversion Hc.
  - destruct (py_getitem hand k) as [c|] eqn:Hc; cbn [obind]; [|discriminate].
    destruct (comprehension (py_getitem hand) keys) as [cs|] eqn:Hcs; cbn [obind];
      [|discriminate].
    intros [= <-]. cbn [distinct_keys] in Hd. destruct Hd as [Hdk Hd].
    apply Forall_cons in Hk as [(i & Hi & Hpos) Hk].
    destruct (IH cs Hd Hk eq_refl) as [Hnd Hsub].
    pose proof (py_getitem_nonnegative _ _ _ _ Hi Hpos Hc) as Hat.
    split.
    + constructor; [|exact Hnd]. intros Hin.
      destruct (comprehension_elem _ _ _ _ Hcs Hin) as (k' & Hk' & Hc').
      rewrite Forall_forall in Hk. destruct (Hk k' Hk') as (i' & Hi' & Hpos').
      pose proof (py_getitem_nonnegative _ _ _ _ Hi' Hpos' Hc') as Hat'.
      pose proof (NoDup_lookup _ _ _ _ Hh Hat Hat') as Heq.
      assert (i = i') as <- by lia.
      rewrite Forall_forall in Hdk. specialize (Hdk k' Hk').
      rewrite (py_index_same_eqb _ _ _ Hi Hi') in Hdk. discriminate.
    + intros c' Hc'. apply elem_of_cons in Hc' as [-> | Hc'].
      * eapply list_elem_of_lookup_2. exact Hat.
      * auto.
Qed.

Section Sizes.
Context `{Collaborators}.

Lemma resolve_discard_return v hand discard :
  resolve_discard v hand = Return discard ->
  exists keys, py_list_set v = Return keys /\ (length keys <= 4)%nat /\
               comprehension (py_getitem hand) keys = Return discard.
Proof.
  unfold resolve_discard. intros Hr. apply obind_return in Hr as (keys & Hk & Hr).
  exists keys. destruct (Nat.ltb_spec 4 (length keys)) as [?|Hle]; [discriminate|]. auto.
Qed.

(** X18. A turn whose references are all non-negative keeps the size of the
    hand of the player and the size of the deck, whether the message is
    accepted or not. *)
Lemma turn_keeps_sizes_without_negative_references (player : PlayerId) (w : World)
    (message : gmap string PyValue) (v : PyValue) (keys : list PyValue) :
  NoDup (player_cards player (scores (table w))) ->
  fst (recv_message player (enforced (table w)) (clock (table w))) = Message message ->
  validate_message_type message "change-cards" = Return tt ->
  message !! "cards"%string = Some v ->
  py_list_set v = Return keys ->
  Forall (fun k => exists i, py_index k = Return i /\ 0 <= i) keys ->
  (4 <= deck_size (deck (table w)))%nat ->
  let w' := snd (change_cards_turn player w) in
  length (player_cards player (scores (table w')))
  = length (player_cards player (scores (table w))) /\
  deck_size (deck (table w')) = deck_size (deck (table w)).
Proof.
  intros Hh Hrecv Hv Hc Hk Hpos Hdeck. cbv zeta.
  rewrite change_cards_turn_run. cbv zeta.
  assert (Ha : fst (asked player (enforced (table w)) (table w))
               = invalid_list_of_cards
                   (resolve_discard v (player_cards player (scores (table w))))).
  { unfold asked. destruct (recv_message _ _ _) as [r later]. cbn [fst] in Hrecv. subst r.
    cbn [fst received_outcome obind]. apply parse_discard_cards; assumption. }
  destruct (fst (asked player (enforced (table w)) (table w))) as [discard|e] eqn:E.
  - rewrite exchange_run. cbn [snd table].
    destruct (resolve_discard v (player_cards player (scores (table w))))
      as [discard'|e'] eqn:Er; [|destruct e'; discriminate].
    cbn [invalid_list_of_cards] in Ha. injection Ha as ->.
    apply resolve_discard_return in Er as (keys' & Hk' & Hlen & Hcomp).
    rewrite Hk in Hk'. injection Hk' as <-.
    destruct (nonnegative_references_do_not_alias _ _ _ Hh
                (py_list_set_distinct _ _ Hk) Hpos Hcomp) as [Hnd Hsub].
    apply comprehension_length in Hcomp.
    destruct (exchange_without_alias player discard'
                (with_clock (snd (asked player (enforced (table w)) (table w))) (table w)))
      as (Hlen' & Hsize & _); cbn [scores deck with_clock]; try assumption; [lia|].
    cbn [scores deck with_clock] in Hlen', Hsize. auto.
  - apply asked_raises in E. destruct (failure_run player e E) as (h & -> & Hh').
    rewrite Hh'. cbn [snd table scores deck with_players with_clock]. auto.
Qed.

(** Whatever the table, the references 0 and -5 into a hand of five
    different cards leave a hand of six cards when the deck holds two. *)
Lemma aliased_references_grow_any_hand (player : PlayerId) (w : World)
    (c0 c1 c2 c3 c4 : Card) :
  NoDup [c0; c1; c2; c3; c4] ->
  player_cards player (scores (table w)) = [c0; c1; c2; c3; c4] ->
  fst (recv_message player (enforced (table w)) (clock (table w)))
  = Message (change_cards_message (PyList [PyInt 0; PyInt (-5)])) ->
  (2 <= deck_size (deck (table w)))%nat ->
  length (player_cards player (scores (table (snd (change_cards_turn player w))))) = 6%nat.
Proof.
  intros Hnd Hhand Hrecv Hdeck.
  rewrite change_cards_turn_run. cbv zeta.
  assert (Ha : fst (asked player (enforced (table w)) (table w)) = Return [c0; c0]).
  { unfold asked. destruct (recv_message _ _ _) as [r later]. cbn [fst] in Hrecv. subst r.
    rewrite Hhand. reflexivity. }
  rewrite Ha, exchange_run. cbn [snd table]. unfold exchanged.
  cbn [deck scores with_clock length].
  pose proof (pop_cards_length 2 (deck (table w)) Hdeck) as Hpop.
  destruct (pop_cards 2 (deck (table w))) as [new_cards d']. cbn [fst] in Hpop.
  cbn [scores with_scores with_deck]. unfold player_cards at 1, assign_cards.
  rewrite lookup_insert_eq. cbn [default]. unfold id. rewrite length_app, Hpop, Hhand.
  apply NoDup_cons in Hnd as [Hc0 _].
  rewrite filter_cons_False.
  2:{ unfold card_in. rewrite bool_decide_eq_true_2; [discriminate|by left]. }
  assert (Hkept : forall c, c ∈ [c1; c2; c3; c4] -> card_in c [c0; c0] = false).
  { intros c Hc. unfold card_in. apply bool_decide_eq_false.
    intros Hin. apply Hc0.
    apply elem_of_cons in Hin as [-> | Hin]; [exact Hc|].
    apply elem_of_cons in Hin as [-> | Hin]; [exact Hc|]. inversion Hin. }
  rewrite !filter_cons_True by (apply Hkept; set_solver). reflexivity.
Qed.

End Sizes.

(** ** The theorems at concrete tables *)

(** C10 at a reference that is out of range. *)
Lemma discard_validation_is_total_witness :
  validate_message_type (change_cards_message (PyList [PyInt 7])) "change-cards" = Return tt /\
  change_cards_message (PyList [PyInt 7]) !! "cards"%string = Some (PyList [PyInt 7]) /\
  parse_discard (change_cards_message (PyList [PyInt 7])) five_cards = Raise invalid_cards.
Proof.
  split; [reflexivity|]. split; [reflexivity|].
  refine (proj1 (proj2 (discard_validation_is_total
            (change_cards_message (PyList [PyInt 7])) (PyList [PyInt 7]) five_cards _ _))
          IndexError _ _); [reflexivity|reflexivity|reflexivity|right; reflexivity].
Defined.

(** C9 at the reference -2. *)
Lemma negative_reference_witness :
  length five_cards = 5%nat /\ -5 <= -2 <= -1 /\
  py_getitem five_cards (PyInt (-2)) = Return (card 14 0).
Proof.
  split; [reflexivity|]. split; [lia|].
  destruct (negative_reference_resolves_from_the_end five_cards (-2)) as [(c & Hc & Hget & _) _];
    [reflexivity|lia|].
  injection Hc as <-. exact Hget.
Defined.

(** C1 with a player who does not answer in time. *)
Lemma failed_turn_witness :
  let w := dealt silent in
  fst (@_get_player_discard (scripted cards24 silent) "alice" (enforced (table w)) w)
    = Raise (MessageTimeout "Timed out") /\
  protocol_failure (MessageTimeout "Timed out") /\
  fst (@_change_cards_round (scripted cards24 silent) "bob" w) = Return tt.
Proof.
  cbv zeta. split; [reflexivity|].
  destruct (@failed_turn_eliminates_and_continues (scripted cards24 silent)
              (seat "alice" 100) (dealt silent) (MessageTimeout "Timed out"))
    as (Hp & _ & later & w' & _ & _ & _ & _ & _ & Hround); [reflexivity|].
  split; [exact Hp|apply Hround].
Defined.

(** C7 with players who discard nothing. *)
Lemma empty_discard_witness :
  let w := dealt (fun _ => change_cards []) in
  fst (@_get_player_discard (scripted cards24 (fun _ => change_cards [])) "alice"
         (enforced (table w)) w) = Return [] /\
  exists w', @change_cards_turn (scripted cards24 (fun _ => change_cards [])) "alice" w
             = (Return tt, w') /\
             deck (table w') = deck (table w) /\ scores (table w') = scores (table w).
Proof.
  cbv zeta. split; [reflexivity|].
  destruct (@empty_discard_changes_nothing (scripted cards24 (fun _ => change_cards []))
              "alice" (dealt (fun _ => change_cards [])))
    as (w' & Hturn & Hd & Hs & _); [reflexivity|].
  exists w'. auto.
Defined.

(** C5 with players who name all five cards. *)
Lemma too_many_references_witness :
  let script := fun _ : PlayerId => change_cards [0; 1; 2; 3; 4] in
  let w := dealt script in
  fst (@recv_message (scripted cards24 script) "alice" (enforced (table w)) (clock (table w)))
    = Message (change_cards_message (PyList (map PyInt [0; 1; 2; 3; 4]))) /\
  fst (@_get_player_discard (scripted cards24 script) "alice" (enforced (table w)) w)
    = Raise too_many_cards /\
  deck (table (snd (@change_cards_turn (scripted cards24 script) "alice" w))) = deck (table w).
Proof.
  cbv zeta. split; [reflexivity|].
  destruct (@too_many_references_are_rejected
              (scripted cards24 (fun _ => change_cards [0; 1; 2; 3; 4])) "alice"
              (dealt (fun _ => change_cards [0; 1; 2; 3; 4]))
              (change_cards_message (PyList (map PyInt [0; 1; 2; 3; 4])))
              (PyList (map PyInt [0; 1; 2; 3; 4]))
              (map PyInt [0; 1; 2; 3; 4]))
    as (Hr & _ & _ & _ & Hd & _); [reflexivity|reflexivity|reflexivity|reflexivity|simpl; lia|].
  split; [exact Hr|exact Hd].
Defined.

(** C6 with blind 10 and a third player who holds 5. *)
Lemma blinds_witness :
  let w := @start (scripted cards24 silent) three_players in
  NoDup (map player_id three_players) /\
  trace (snd (@_collect_blinds (scripted cards24 silent) 10 w))
    = [Dispatch (DeadPlayer "carol")] /\
  exists bets,
    fst (@_collect_blinds (scripted cards24 silent) 10 w) = Return bets /\
    active (players (table (snd (@_collect_blinds (scripted cards24 silent) 10 w))))
      = [seat "alice" 90; seat "bob" 40] /\
    bets !! "alice"%string = Some 10 /\ bets !! "carol"%string = None.
Proof.
  cbv zeta.
  assert (Hnd : NoDup (map player_id three_players)).
  { apply (bool_decide_unpack _). vm_compute. exact I. }
  split; [exact Hnd|].
  destruct (@blinds_are_collected_or_the_hand_aborts (scripted cards24 silent) 10
              (@start (scripted cards24 silent) three_players) Hnd)
    as (Htr & _ & _ & Hok & _).
  split; [exact Htr|].
  destruct Hok as (bets & Hb & Ha & Hbets); [vm_compute; lia|].
  exists bets. split; [exact Hb|]. split; [exact Ha|].
  split; [apply (Hbets "alice"%string)|apply (Hbets "carol"%string)].
Defined.


(** C8 as the specification words it, at a turn that starts at
    1700000000.75, which is a float: the deadline 1700000030.75 is shown as
    22:13:50, that is as 1700000030, and the receive is given
    1700000032.75.  The advertised deadline is not the start plus 30, and
    the enforced one is 2.75 seconds past it, not 2. *)
Lemma advertised_deadline_drops_the_fraction :
  let w := at_clock quarter_to silent in
  let t := table w in
  binary64 (clock t) = clock t /\
  trace (snd (@change_cards_turn (scripted cards24 silent) "alice" w)) =
    trace w ++
    [Dispatch (ChangeCardsAction "alice" 30 "2023-11-14 22:13:50+0000");
     RecvMessage "alice" (1700000032 * second + 3 * (second / 4));
     SendMessage "alice" (@error_notice (scripted cards24 silent) (MessageTimeout "Timed out"));
     Dispatch (DeadPlayer "alice")] /\
  clock t + 30 * second = 1700000030 * second + 3 * (second / 4) /\
  advertised t = strftime (gmtime (1700000030 * second)) /\
  advertised_instant t = 1700000030 * second /\
  enforced t - advertised_instant t = 2 * second + 3 * (second / 4) /\
  advertised_instant t <> clock t + 30 * second /\
  enforced t <> advertised_instant t + 2 * second /\
  ~ exactly_two_apart t.
Proof.
  cbv zeta.
  assert (H1 : @advertised_instant (scripted cards24 silent) (table (at_clock quarter_to silent))
               <> clock (table (at_clock quarter_to silent)) + 30 * second).
  { intros E. vm_compute in E. discriminate E. }
  do 6 (split; [vm_compute; reflexivity|]).
  split; [exact H1|]. split.
  - intros E. vm_compute in E. discriminate E.
  - intros [E _]. exact (H1 E).
Qed.

(** The most is reached: at a turn that starts at 2147483617.9999998 the
    deadline is the last float before 2^31 seconds, shown as 03:14:07, and
    its sum with the tolerance lies half way between two floats and is
    rounded up to 2147483650, three seconds past the advertised deadline. *)
Lemma three_seconds_past_are_reached :
  let t := table (at_clock last_before silent) in
  binary64 (clock t) = clock t /\
  deadline t = 2 ^ 31 * second - second / 2 ^ 22 /\
  advertised t = "2038-01-19 03:14:07+0000" /\
  advertised_instant t = 2147483647 * second /\
  enforced t = 2147483650 * second /\
  enforced t = advertised_instant t + 3 * second /\
  enforced t - deadline t = 2 * second + second / 2 ^ 22.
Proof. cbv zeta. do 6 (split; [vm_compute; reflexivity|]). vm_compute. reflexivity. Qed.

(** C8, amended, at the turn that starts at 1700000000.75. *)
Lemma enforced_deadline_witness :
  let t := table (at_clock quarter_to silent) in
  0 <= clock t < 2 ^ 52 * second /\
  advertised_instant t + 2 * second <= enforced t <= advertised_instant t + 3 * second.
Proof.
  cbv zeta.
  assert (Hclock : 0 <= clock (table (at_clock quarter_to silent)) < 2 ^ 52 * second).
  { vm_compute. split; [discriminate | reflexivity]. }
  split; [exact Hclock|].
  pose proof (@enforced_deadline_is_two_to_three_past_advertised
                (scripted cards24 silent) "alice" (at_clock quarter_to silent) Hclock) as Hturn.
  cbv zeta in Hturn. destruct Hturn as (_ & _ & _ & _ & _ & _ & Hb & _). exact Hb.
Defined.

(** * Further properties *)

(** ** Validation of the "cards" field *)

Lemma change_cards_message_parse v hand :
  parse_discard (change_cards_message v) hand
  = invalid_list_of_cards (resolve_discard v hand).
Proof. apply parse_discard_cards; reflexivity. Qed.

Lemma py_getitem_elem {A} (l : list A) k x : py_getitem l k = Return x -> x ∈ l.
Proof.
  unfold py_getitem. destruct (py_index k) as [i|]; cbn [obind]; [|discriminate].
  destruct (_ || _); [discriminate|].
  destruct (l !! Z.to_nat _) as [y|] eqn:E; [|discriminate].
  intros [= <-]. eapply list_elem_of_lookup_2. exact E.
Qed.

Lemma parse_discard_return message hand discard :
  parse_discard message hand = Return discard ->
  exists v, message !! "cards"%string = Some v /\
            resolve_discard v hand = Return discard.
Proof.
  unfold parse_discard. intros Hp. apply obind_return in Hp as (u & _ & Hp).
  destruct (message !! "cards"%string) as [v|]; [|discriminate].
  exists v. split; [reflexivity|].
  destruct (resolve_discard v hand) as [d|e]; [exact Hp|destruct e; discriminate].
Qed.

(** X2. Whatever the message, a discard list that validation returns has at
    most four cards, and every one of them is a card of the hand. *)
Theorem accepted_discard_is_small_and_held (message : gmap string PyValue)
    (hand discard : list Card) :
  parse_discard message hand = Return discard ->
  (length discard <= 4)%nat /\ forall c, c ∈ discard -> c ∈ hand.
Proof.
  intros Hp. apply parse_discard_return in Hp as (v & _ & Hr).
  apply resolve_discard_return in Hr as (keys & _ & Hlen & Hcomp).
  split.
  - rewrite (comprehension_length _ _ _ Hcomp). exact Hlen.
  - intros c Hc. destruct (comprehension_elem _ _ _ _ Hcomp Hc) as (k & _ & Hk).
    eapply py_getitem_elem. exact Hk.
Qed.

(** A change-cards message without the "cards" field is rejected with the
    format error "Attribute is missing", whatever the hand. *)
Lemma missing_cards_field_is_rejected (message : gmap string PyValue) (hand : list Card) :
  validate_message_type message "change-cards" = Return tt ->
  message !! "cards"%string = None ->
  parse_discard message hand
  = Raise (MessageFormatError (Some "cards"%string) (Some "Attribute is missing"%string)).
Proof. intros Hv Hc. unfold parse_discard. rewrite Hv, Hc. reflexivity. Qed.

(** X3. A single integer reference [i] into a hand of [n] cards is accepted
    exactly when [-n <= i < n], and then names the card at position
    [i mod n]; any other integer gives "Invalid list of cards". *)
Theorem single_reference_bounds (hand : list Card) (i : Z) :
  let n := Z.of_nat (length hand) in
  let message := change_cards_message (PyList [PyInt i]) in
  (- n <= i < n ->
     exists c, hand !! Z.to_nat (i mod n) = Some c /\
               parse_discard message hand = Return [c]) /\
  (i < - n \/ n <= i -> parse_discard message hand = Raise invalid_cards).
Proof.
  cbv zeta. rewrite change_cards_message_parse.
  assert (Hr : resolve_discard (PyList [PyInt i]) hand
               = (c <~ py_getitem hand (PyInt i) ;; Return [c])).
  { unfold resolve_discard. cbn. destruct (py_getitem hand (PyInt i)); reflexivity. }
  rewrite Hr. unfold py_getitem. cbn [py_index obind].
  set (n := Z.of_nat (length hand)). split.
  - intros Hi.
    assert (Hj : (if i <? 0 then i + n else i) = i mod n).
    { destruct (Z.ltb_spec i 0).
      - apply (Z.mod_unique i n (-1)); lia.
      - symmetry. apply Z.mod_small. lia. }
    rewrite Hj.
    assert (Hpos : 0 <= i mod n < n) by (apply Z.mod_pos_bound; lia).
    destruct (Z.ltb_spec (i mod n) 0); [lia|].
    destruct (Z.leb_spec n (i mod n)); [lia|]. cbn [orb].
    destruct (lookup_lt_is_Some_2 hand (Z.to_nat (i mod n))) as [c Hc]; [subst n; lia|].
    exists c. rewrite Hc. auto.
  - intros Hi. destruct (Z.ltb_spec i 0).
    + destruct (Z.ltb_spec (i + n) 0); [reflexivity|]. destruct Hi; lia.
    + destruct (Z.ltb_spec i 0); [lia|].
      destruct (Z.leb_spec n i); [reflexivity|]. destruct Hi; lia.
Qed.

Lemma py_eqb_refl x : py_hashable x = true -> py_eqb x x = true.
Proof.
  destruct x; cbn; try discriminate; intros _; try reflexivity;
    try (apply Qeq_bool_iff; reflexivity).
  apply String.eqb_refl.
Qed.

Lemma existsb_set_add x seen z :
  existsb (py_eqb x) seen = true -> existsb (py_eqb x) (set_add seen z) = true.
Proof.
  intros Hx. unfold set_add. destruct (existsb (py_eqb z) seen); [exact Hx|].
  rewrite existsb_app, Hx. reflexivity.
Qed.

Lemma existsb_fold_set_add x items seen :
  existsb (py_eqb x) seen = true ->
  existsb (py_eqb x) (fold_left set_add items seen) = true.
Proof.
  revert seen. induction items as [|z items IH]; intros seen Hx; cbn [fold_left];
    [exact Hx|].
  apply IH, existsb_set_add, Hx.
Qed.

(** Every hashable item of the list is found in the set made from it. *)
Lemma fold_set_add_covers x items seen :
  x ∈ items -> py_hashable x = true ->
  existsb (py_eqb x) (fold_left set_add items seen) = true.
Proof.
  revert seen. induction items as [|z items IH]; intros seen Hin Hx; [inversion Hin|].
  cbn [fold_left]. apply elem_of_cons in Hin as [<- | Hin]; [|by apply IH].
  apply existsb_fold_set_add. unfold set_add.
  destruct (existsb (py_eqb x) seen) eqn:E; [exact E|].
  rewrite existsb_app. cbn [existsb]. rewrite (py_eqb_refl _ Hx), orb_true_r. reflexivity.
Qed.

Lemma fold_set_add_present items seen :
  Forall (fun x => existsb (py_eqb x) seen = true) items ->
  fold_left set_add items seen = seen.
Proof.
  revert seen. induction items as [|z items IH]; intros seen Hall; [reflexivity|].
  apply Forall_cons in Hall as [Hz Hall]. cbn [fold_left].
  unfold set_add at 2. rewrite Hz. apply IH, Hall.
Qed.

(** X4. Repeated references count once: references added after a list in
    which they already occur change nothing, neither the outcome nor the
    order of the discard list. *)
Theorem repeated_references_collapse (l l' : list PyValue) (hand : list Card) :
  forallb py_hashable l = true ->
  (forall x, x ∈ l' -> x ∈ l) ->
  py_list_set (PyList (l ++ l')) = py_list_set (PyList l) /\
  parse_discard (change_cards_message (PyList (l ++ l'))) hand
  = parse_discard (change_cards_message (PyList l)) hand.
Proof.
  intros Hh Hsub.
  assert (Hset : py_list_set (PyList (l ++ l')) = py_list_set (PyList l)).
  { unfold py_list_set. cbn [py_iter obind]. rewrite forallb_app, Hh. cbn [andb].
    assert (Hh' : forallb py_hashable l' = true).
    { apply forallb_forall. intros x Hx. rewrite forallb_forall in Hh.
      apply Hh, list_elem_of_In, Hsub, list_elem_of_In, Hx. }
    rewrite Hh', fold_left_app. f_equal. apply fold_set_add_present.
    apply Forall_forall. intros x Hx. apply fold_set_add_covers; [by apply Hsub|].
    rewrite forallb_forall in Hh'. apply Hh'. by apply list_elem_of_In. }
  split; [exact Hset|].
  rewrite !change_cards_message_parse. unfold resolve_discard. rewrite Hset. reflexivity.
Qed.

(** The set made from a list starts with what was in it before. *)
Lemma fold_set_add_prefix items seen :
  exists rest, fold_left set_add items seen = seen ++ rest.
Proof.
  revert seen. induction items as [|z items IH]; intros seen; cbn [fold_left].
  - exists []. by rewrite app_nil_r.
  - destruct (IH (set_add seen z)) as (rest & ->). unfold set_add.
    destruct (existsb (py_eqb z) seen); [by exists rest|].
    exists (z :: rest). by rewrite <- app_assoc.
Qed.

(** A value whose first item is not an integer is never accepted. *)
Lemma first_item_not_an_index v x items hand :
  py_iter v = Return (x :: items) ->
  py_index x = Raise TypeError ->
  invalid_list_of_cards (resolve_discard v hand) = Raise too_many_cards \/
  invalid_list_of_cards (resolve_discard v hand) = Raise invalid_cards.
Proof.
  intros Hit Hx. unfold resolve_discard, py_list_set. rewrite Hit. cbn [obind].
  destruct (forallb py_hashable (x :: items)); [|right; reflexivity].
  cbn [obind fold_left]. change (set_add [] x) with [x].
  destruct (fold_set_add_prefix items [x]) as (rest & ->). cbn [app].
  destruct (4 <? length (x :: rest))%nat; [left; reflexivity|right].
  cbn [comprehension].
  assert (Hg : py_getitem hand x = Raise TypeError)
    by (unfold py_getitem; rewrite Hx; reflexivity).
  rewrite Hg. reflexivity.
Qed.

(** X5. A "cards" value that is not a list: the empty string and the empty
    dict are accepted as an empty discard; a non-empty string or dict is
    always rejected (its items are strings, not indices); None, a bool, a
    number are rejected as "Invalid list of cards". *)
Theorem cards_that_are_not_a_list (hand : list Card) :
  parse_discard (change_cards_message (PyStr "")) hand = Return [] /\
  parse_discard (change_cards_message (PyDict [])) hand = Return [] /\
  (forall s, s <> ""%string ->
     parse_discard (change_cards_message (PyStr s)) hand = Raise too_many_cards \/
     parse_discard (change_cards_message (PyStr s)) hand = Raise invalid_cards) /\
  (forall d, d <> [] ->
     parse_discard (change_cards_message (PyDict d)) hand = Raise too_many_cards \/
     parse_discard (change_cards_message (PyDict d)) hand = Raise invalid_cards) /\
  (forall b z q,
     parse_discard (change_cards_message PyNone) hand = Raise invalid_cards /\
     parse_discard (change_cards_message (PyBool b)) hand = Raise invalid_cards /\
     parse_discard (change_cards_message (PyInt z)) hand = Raise invalid_cards /\
     parse_discard (change_cards_message (PyFloat q)) hand = Raise invalid_cards).
Proof.
  split; [reflexivity|]. split; [reflexivity|]. split; [|split].
  - intros s Hs. rewrite change_cards_message_parse.
    destruct s as [|c s]; [congruence|].
    eapply first_item_not_an_index; reflexivity.
  - intros d Hd. rewrite change_cards_message_parse.
    destruct d as [|kv d]; [congruence|].
    eapply first_item_not_an_index; reflexivity.
  - intros b z q. rewrite !change_cards_message_parse. repeat split.
Qed.

(** ** The card-exchange round as a whole *)

Section Round.
Context `{Collaborators}.

(** X1. A turn whose message lacks the "cards" field ends with the player
    eliminated: the notice sent carries the error "Attribute is missing",
    and nothing but the roster and the clock changes. *)
Theorem missing_cards_field_eliminates (player : PlayerId) (w : World)
    (message : gmap string PyValue) (later : Z) :
  recv_message player (enforced (table w)) (clock (table w)) = (Message message, later) ->
  validate_message_type message "change-cards" = Return tt ->
  message !! "cards"%string = None ->
  let missing := MessageFormatError (Some "cards"%string) (Some "Attribute is missing"%string) in
  change_cards_turn player w =
  (Return tt,
   {| table := with_players (remove player (players (table w))) (with_clock later (table w));
      trace := trace w ++
        [Dispatch (ChangeCardsAction player CHANGE_CARDS_TIMEOUT (advertised (table w)));
         RecvMessage player (enforced (table w));
         SendMessage player (error_notice missing);
         Dispatch (DeadPlayer player)] |}).
Proof.
  intros Hrecv Hv Hc. cbv zeta. rewrite change_cards_turn_run. cbv zeta.
  unfold asked. rewrite Hrecv. cbn [fst snd received_outcome obind].
  rewrite (missing_cards_field_is_rejected _ _ Hv Hc). cbn [player_failure].
  run_engine. rewrite <- !app_assoc. reflexivity.
Qed.

(** What a turn does to the table, whatever the answer. *)
Lemma change_cards_turn_table player w :
  let t := with_clock (snd (asked player (enforced (table w)) (table w))) (table w) in
  table (snd (change_cards_turn player w)) =
  match fst (asked player (enforced (table w)) (table w)) with
  | Return discard => exchanged player discard t
  | Raise _ => with_players (remove player (players t)) t
  end.
Proof.
  cbv zeta. rewrite change_cards_turn_run. cbv zeta.
  destruct (fst (asked player (enforced (table w)) (table w))) as [discard|e] eqn:E.
  - rewrite exchange_run. reflexivity.
  - apply asked_raises in E. destruct (failure_run player e E) as (h & -> & Hh).
    rewrite Hh. reflexivity.
Qed.

Lemma exchanged_frame player discard (t : Table Pots) :
  players (exchanged player discard t) = players t /\
  pots (exchanged player discard t) = pots t /\
  clock (exchanged player discard t) = clock t /\
  forall other, other <> player ->
    player_cards other (scores (exchanged player discard t)) = player_cards other (scores t).
Proof.
  unfold exchanged. destruct discard as [|c discard]; [auto|].
  destruct (pop_cards _ _) as [new_cards d'].
  cbn [players pots clock scores with_scores with_deck]. repeat split.
  intros other Hne. unfold player_cards, assign_cards. by rewrite lookup_insert_ne.
Qed.

Lemma only_deactivated_refl gp : only_deactivated gp gp.
Proof. unfold only_deactivated. apply Forall2_same_length_lookup_2; [done|].
  intros i p q Hp Hq. rewrite Hp in Hq. injection Hq as <-. auto.
Qed.

Lemma only_deactivated_trans gp1 gp2 gp3 :
  only_deactivated gp1 gp2 -> only_deactivated gp2 gp3 -> only_deactivated gp1 gp3.
Proof.
  unfold only_deactivated. intros H12. revert gp3.
  induction H12 as [|p q gp1 gp2 (Hi & Hm & Ha) _ IH]; intros gp3 H23.
  - inversion H23. constructor.
  - inversion H23 as [|q' r gp2' gp3' (Hi' & Hm' & Ha') Hrest]; subst.
    constructor; [|by apply IH].
    split; [congruence|]. split; [congruence|auto].
Qed.

Lemma only_deactivated_remove pid gp : only_deactivated gp (remove pid gp).
Proof.
  unfold only_deactivated, remove, update_player.
  induction gp as [|p gp IH]; cbn [map]; constructor; [|exact IH].
  destruct (String.eqb (player_id p) pid); cbn; auto. repeat split. discriminate.
Qed.

(** What a turn leaves alone. *)
Lemma change_cards_turn_frame player w :
  let w' := snd (change_cards_turn player w) in
  only_deactivated (players (table w)) (players (table w')) /\
  pots (table w') = pots (table w) /\
  forall other, other <> player ->
    player_cards other (scores (table w')) = player_cards other (scores (table w)).
Proof.
  cbv zeta. rewrite change_cards_turn_table. cbv zeta.
  destruct (fst (asked player (enforced (table w)) (table w))) as [discard|e].
  - destruct (exchanged_frame player discard
                (with_clock (snd (asked player (enforced (table w)) (table w))) (table w)))
      as (Hp & Hpots & _ & Hothers).
    rewrite Hp, Hpots. cbn [players pots with_clock].
    split; [apply only_deactivated_refl|]. split; [reflexivity|].
    intros other Hne. rewrite (Hothers other Hne). reflexivity.
  - cbn [players pots scores with_players with_clock].
    split; [apply only_deactivated_remove|]. auto.
Qed.

(** X6. The card-exchange round changes no balance, no id, no seat and not
    the pots; it makes nobody active who was not; and it leaves the hand of
    every player outside the rotation as it was. *)
Theorem exchange_round_frame (dealer_id : PlayerId) (w : World) :
  let w' := snd (_change_cards_round dealer_id w) in
  only_deactivated (players (table w)) (players (table w')) /\
  map money (players (table w')) = map money (players (table w)) /\
  pots (table w') = pots (table w) /\
  (count_active (players (table w')) <= count_active (players (table w)))%nat /\
  forall other, other ∉ map player_id (round dealer_id (players (table w))) ->
    player_cards other (scores (table w')) = player_cards other (scores (table w)).
Proof.
  cbv zeta. unfold _change_cards_round, bind, gets. cbn [fst snd].
  generalize (round dealer_id (players (table w))). intros l.
  assert (Hloop : forall l w,
    only_deactivated (players (table w))
      (players (table (snd (for_each l (fun p => change_cards_turn (player_id p)) w)))) /\
    pots (table (snd (for_each l (fun p => change_cards_turn (player_id p)) w)))
      = pots (table w) /\
    forall other, other ∉ map player_id l ->
      player_cards other
        (scores (table (snd (for_each l (fun p => change_cards_turn (player_id p)) w))))
      = player_cards other (scores (table w))).
  { clear. intros l. induction l as [|p l IH]; intros w.
    - cbn. split; [apply only_deactivated_refl|auto].
    - cbn [for_each]. unfold bind.
      pose proof (change_cards_turn_returns (player_id p) w) as Hret.
      destruct (change_cards_turn_frame (player_id p) w) as (Hd & Hpots & Hothers).
      destruct (change_cards_turn (player_id p) w) as [r w1]. cbn [fst snd] in *. subst r.
      destruct (IH w1) as (Hd' & Hpots' & Hothers').
      split; [eapply only_deactivated_trans; eauto|]. split; [congruence|].
      intros other Hnot. cbn [map] in Hnot. apply not_elem_of_cons in Hnot as [Hne Hnot].
      rewrite (Hothers' other Hnot). apply Hothers. exact Hne. }
  destruct (Hloop l w) as (Hd & Hpots & Hothers).
  split; [exact Hd|]. split; [|split; [exact Hpots|split; [|exact Hothers]]].
  - clear -Hd. unfold only_deactivated in Hd.
    induction Hd as [|p q gp gp' (_ & Hm & _) _ IH]; [reflexivity|].
    cbn [map]. rewrite Hm, IH. reflexivity.
  - clear -Hd. unfold only_deactivated, count_active, active in *.
    induction Hd as [|p q gp gp' (_ & _ & Ha) _ IH]; [reflexivity|].
    destruct (is_active q) eqn:Eq.
    + rewrite !filter_cons_True by auto. cbn [length]. lia.
    + rewrite (filter_cons_False _ q) by congruence.
      destruct (decide (is_active p = true)).
      * rewrite filter_cons_True by done. cbn [length]. lia.
      * rewrite filter_cons_False by done. exact IH.
Qed.

End Round.

Section Round_trace.
Context `{Collaborators}.

Lemma asked_return_small player timeout_epoch (t : Table Pots) discard :
  fst (asked player timeout_epoch t) = Return discard -> (length discard <= 4)%nat.
Proof.
  unfold asked. destruct (recv_message _ _ _) as [r later]. cbn [fst]. intros Ha.
  apply obind_return in Ha as (message & _ & Hp).
  apply parse_discard_return in Hp as (v & _ & Hr).
  apply resolve_discard_return in Hr as (keys & _ & Hlen & Hcomp).
  rewrite (comprehension_length _ _ _ Hcomp). exact Hlen.
Qed.

(** What one turn adds to the trace, seen through the projections. *)
Lemma change_cards_turn_trace player w :
  exists tr,
    trace (snd (change_cards_turn player w)) = trace w ++ tr /\
    omap action_player tr = [player] /\
    omap recv_player tr = [player] /\
    omap closing_player tr = [player] /\
    forallb at_most_four tr = true.
Proof.
  rewrite change_cards_turn_run. cbv zeta.
  destruct (fst (asked player (enforced (table w)) (table w))) as [discard|e] eqn:E.
  - rewrite exchange_run. cbn [snd trace table]. eexists. rewrite <- app_assoc.
    split; [reflexivity|]. apply asked_return_small in E. apply Nat.leb_le in E.
    unfold exchange_trace. destruct discard as [|c discard]; cbn; cbn in E; rewrite ?E; auto.
  - apply asked_raises in E. destruct (failure_run player e E) as (h & -> & Hh).
    rewrite Hh. cbn [snd trace table]. eexists. rewrite <- app_assoc.
    split; [reflexivity|]. cbn. auto.
Qed.

Lemma change_cards_loop_trace (l : list Player) w :
  exists tr,
    trace (snd (for_each l (fun p => change_cards_turn (player_id p)) w)) = trace w ++ tr /\
    omap action_player tr = map player_id l /\
    omap recv_player tr = map player_id l /\
    omap closing_player tr = map player_id l /\
    forallb at_most_four tr = true.
Proof.
  revert w. induction l as [|p l IH]; intros w.
  - exists []. cbn. rewrite app_nil_r. auto.
  - cbn [for_each]. unfold bind.
    pose proof (change_cards_turn_returns (player_id p) w) as Hret.
    destruct (change_cards_turn_trace (player_id p) w) as (tr1 & Ht1 & Ha1 & Hr1 & Hc1 & Hf1).
    destruct (change_cards_turn (player_id p) w) as [r w1]. cbn [fst snd] in *. subst r.
    destruct (IH w1) as (tr2 & Ht2 & Ha2 & Hr2 & Hc2 & Hf2).
    exists (tr1 ++ tr2). rewrite Ht2, Ht1, app_assoc, !omap_app, forallb_app.
    rewrite Ha1, Ha2, Hr1, Hr2, Hc1, Hc2, Hf1, Hf2. auto.
Qed.

(** X7. In the card-exchange round every player of the rotation is asked
    once, received from once and answered once (by a change-cards event or
    by a dead-player event), all in the order of the rotation, and nobody
    else is. *)
Theorem exchange_round_asks_each_player_once (dealer_id : PlayerId) (w : World) :
  let rotation_ids := map player_id (round dealer_id (players (table w))) in
  exists tr,
    trace (snd (_change_cards_round dealer_id w)) = trace w ++ tr /\
    omap action_player tr = rotation_ids /\
    omap recv_player tr = rotation_ids /\
    omap closing_player tr = rotation_ids.
Proof.
  cbv zeta. unfold _change_cards_round, bind, gets. cbn [fst snd].
  destruct (change_cards_loop_trace (round dealer_id (players (table w))) w)
    as (tr & Ht & Ha & Hr & Hc & _).
  exists tr. auto.
Qed.

(** X8. Every change-cards event of the round reports at most four cards. *)
Theorem exchange_round_reports_at_most_four (dealer_id : PlayerId) (w : World)
    (player : PlayerId) (n : nat) :
  Dispatch (ChangeCards player n)
    ∈ drop (length (trace w)) (trace (snd (_change_cards_round dealer_id w))) ->
  (n <= 4)%nat.
Proof.
  unfold _change_cards_round, bind, gets. cbn [fst snd].
  destruct (change_cards_loop_trace (round dealer_id (players (table w))) w)
    as (tr & -> & _ & _ & _ & Hf).
  rewrite drop_app_length. intros Hin.
  rewrite forallb_forall in Hf. apply list_elem_of_In, Hf in Hin.
  cbn in Hin. by apply Nat.leb_le.
Qed.

Lemma pop_cards_from_deck n d x : x ∈ fst (pop_cards n d) -> x ∈ deck_cards d.
Proof.
  unfold pop_cards, deck_cards. destruct (n <=? length (pool d))%nat; cbn [fst].
  - intros Hx. apply elem_of_app. left. by apply (subseteq_take n).
  - rewrite !elem_of_app. intros [Hx|Hx]; [auto|right].
    by apply (subseteq_take (n - length (pool d))).
Qed.

(** X9. The replacement cards are drawn before the discarded cards are
    returned: when the deck holds none of the discarded cards, the player
    holds none of them after the exchange, the deck holds all of them, and
    every card that was not named is still in the hand. *)
Theorem discarded_cards_do_not_come_back (player : PlayerId) (discard : list Card)
    (w : World) :
  (forall c, c ∈ discard -> c ∉ deck_cards (deck (table w))) ->
  let w' := snd (exchange player discard w) in
  (forall c, c ∈ discard -> c ∉ player_cards player (scores (table w'))) /\
  (forall c, c ∈ discard -> c ∈ deck_cards (deck (table w'))) /\
  (forall c, c ∈ player_cards player (scores (table w)) -> c ∉ discard ->
             c ∈ player_cards player (scores (table w'))).
Proof.
  intros Hdeck. cbv zeta. rewrite exchange_run. cbn [snd table]. unfold exchanged.
  destruct discard as [|c0 discard].
  - split; [intros c Hc; inversion Hc|]. split; [intros c Hc; inversion Hc|auto].
  - pose proof (pop_cards_from_deck (length (c0 :: discard)) (deck (table w))) as Hpop.
    destruct (pop_cards (length (c0 :: discard)) (deck (table w))) as [new_cards d'].
    cbn [fst] in Hpop. cbn [scores deck with_scores with_deck].
    assert (Hhand : forall cs sc, player_cards player (assign_cards player cs sc) = cs).
    { intros cs sc. unfold player_cards, assign_cards. by rewrite lookup_insert_eq. }
    rewrite !Hhand. split; [|split].
    + intros c Hc. rewrite elem_of_app, list_elem_of_filter. unfold card_in.
      rewrite bool_decide_eq_false. intros [[Hnot _]|Hnew]; [by apply Hnot|].
      apply (Hdeck c Hc), Hpop, Hnew.
    + intros c Hc. unfold deck_cards, push_cards. cbn [pool discards].
      rewrite !elem_of_app. auto.
    + intros c Hc Hnot. rewrite elem_of_app, list_elem_of_filter. left.
      split; [|exact Hc]. unfold card_in. by apply bool_decide_eq_false.
Qed.

End Round_trace.

(** ** Blind collection and the money *)

Section Money.
Context `{Collaborators}.

(** [_collect_blinds] on any roster, with the two loops as folds. *)
Lemma collect_blinds_general blind w :
  let gp := players (table w) in
  let kgp := fold_left (kick_step blind) (active gp) gp in
  let tr := trace w ++ map dead_player_event (filter (fun p => money p < blind) (active gp)) in
  _collect_blinds blind w =
  if (count_active kgp <? 2)%nat then
    (Raise (GameError "Not enough players"),
     {| table := with_players kgp (table w); trace := tr |})
  else
    (Return (fold_left (fun b q => <[player_id q := blind]> b) (active kgp) ∅),
     {| table := with_players (fold_left (take_step blind) (active kgp) kgp) (table w);
        trace := tr |}).
Proof.
  cbv zeta. unfold _collect_blinds, kick_out_poor.
  unfold bind at 1 2. unfold gets at 1. rewrite kick_loop. run_engine.
  destruct (count_active _ <? 2)%nat; [reflexivity|].
  rewrite take_blinds_run. reflexivity.
Qed.

Lemma only_deactivated_map (c : Player -> bool) gp :
  only_deactivated gp (map (fun p => if c p then deactivate p else p) gp).
Proof.
  unfold only_deactivated. induction gp as [|p gp IH]; cbn [map]; constructor; [|exact IH].
  destruct (c p); cbn; auto. repeat split. discriminate.
Qed.

Lemma only_deactivated_money gp gp' :
  only_deactivated gp gp' -> total_money gp' = total_money gp.
Proof.
  unfold only_deactivated. induction 1 as [|p q gp gp' (_ & Hm & _) _ IH]; [reflexivity|].
  cbn [total_money foldr]. fold (total_money gp). fold (total_money gp'). lia.
Qed.

(** The [try] statement of [play_hand] always returns. *)
Lemma play_hand_returns_after_blinds blind dealer_id w bets :
  fst (_collect_blinds blind (snd (create_hand w))) = Return bets ->
  fst (play_hand blind dealer_id w) = Return tt.
Proof.
  intros Hb. pose proof (open_hand_returns blind dealer_id w bets Hb) as Hopen.
  unfold play_hand, try_except_else, bind.
  destruct (open_hand blind dealer_id w) as [r0 wb]. cbn [fst] in Hopen. subst r0.
  destruct (runs_hand_phases dealer_id wb) as (tr1 & _ & _ & Hraise).
  destruct (hand_phases dealer_id wb) as [r1 w1]. cbn [fst] in Hraise. subst r1.
  destruct (end_game_run w1) as (h & -> & ->). reflexivity.
Qed.

(** X10. The only exception [play_hand] lets out is the [GameError] of the
    blinds, and a hand that ends with it has taken no money: the roster
    has its seats, ids and balances, fewer than two players are active,
    and nothing but dead-player events were added to the trace. *)
Theorem aborted_hand_takes_no_money (blind : Z) (dealer_id : PlayerId) (w : World) (e : Exn) :
  fst (play_hand blind dealer_id w) = Raise e ->
  let w' := snd (play_hand blind dealer_id w) in
  e = GameError "Not enough players" /\
  only_deactivated (reset (players (table w))) (players (table w')) /\
  total_money (players (table w')) = total_money (reset (players (table w))) /\
  (count_active (players (table w')) < 2)%nat /\
  Forall (fun a => exists p, a = Dispatch (DeadPlayer p))
         (drop (length (trace w)) (trace w')).
Proof.
  intros He. cbv zeta.
  destruct (fst (_collect_blinds blind (snd (create_hand w)))) as [bets|e0] eqn:Eb.
  { rewrite (play_hand_returns_after_blinds _ _ _ _ Eb) in He. discriminate. }
  rewrite (failed_blinds_end_the_hand _ dealer_id _ _ Eb) in He |- *.
  cbn [fst snd] in He |- *. injection He as <-.
  pose proof (collect_blinds_general blind (snd (create_hand w))) as Hrun. cbv zeta in Hrun.
  change (players (table (snd (create_hand w)))) with (reset (players (table w))) in Hrun.
  change (trace (snd (create_hand w))) with (trace w) in Hrun.
  rewrite Hrun in Eb |- *.
  destruct (Nat.ltb_spec
              (count_active (fold_left (kick_step blind) (active (reset (players (table w))))
                               (reset (players (table w))))) 2) as [Hlt|Hge];
    cbn [fst snd table trace players with_players] in Eb |- *; [|discriminate].
  injection Eb as <-.
  assert (Hd : only_deactivated (reset (players (table w)))
                 (fold_left (kick_step blind) (active (reset (players (table w))))
                    (reset (players (table w))))).
  { rewrite kick_fold. apply only_deactivated_map. }
  split; [reflexivity|]. split; [exact Hd|].
  split; [apply only_deactivated_money, Hd|]. split; [exact Hlt|].
  rewrite drop_app_length. apply Forall_forall. intros a Ha.
  apply list_elem_of_fmap in Ha as (p & -> & _). exists (player_id p). reflexivity.
Qed.






End Money.

Section Roster.
Context `{Collaborators}.

Lemma same_seat_kicked_debited blind gp :
  Forall2 same_seat gp (kicked blind gp) /\
  Forall2 same_seat gp (debited blind (kicked blind gp)).
Proof.
  unfold kicked, debited, same_seat. split.
  - induction gp as [|p gp IH]; cbn [map]; constructor; [|exact IH].
    destruct (is_active p) eqn:Ha; cbn [andb]; [|repeat split; congruence].
    destruct (money p <? blind); cbn; repeat split; congruence.
  - rewrite map_map. induction gp as [|p gp IH]; cbn [map]; constructor; [|exact IH].
    destruct (is_active p) eqn:Ha; cbn [andb].
    + destruct (money p <? blind); cbn; rewrite ?Ha; cbn; repeat split; congruence.
    + rewrite Ha. repeat split; congruence.
Qed.

(** X12. Blind collection, on a roster with distinct ids, touches nothing
    but the roster: deck, hands, pots and clock stay; every seat keeps its
    id, a player who was not active is left exactly as found, and nobody
    becomes active; and when the collection succeeds no active player is
    left with a negative balance. *)
Theorem blinds_touch_only_active_players (blind : Z) (w : World) :
  NoDup (map player_id (players (table w))) ->
  let w' := snd (_collect_blinds blind w) in
  table w' = with_players (players (table w')) (table w) /\
  Forall2 same_seat (players (table w)) (players (table w')) /\
  (forall bets, fst (_collect_blinds blind w) = Return bets ->
     forall q, q ∈ active (players (table w')) -> 0 <= money q).
Proof.
  intros Hnd. cbv zeta.
  pose proof (collect_blinds_run blind w Hnd) as Hrun. cbv zeta in Hrun. rewrite Hrun.
  destruct (same_seat_kicked_debited blind (players (table w))) as [Hk Hd].
  destruct (length _ <? 2)%nat; cbn [fst snd table players with_players].
  - split; [reflexivity|]. split; [exact Hk|]. discriminate.
  - split; [reflexivity|]. split; [exact Hd|]. intros bets _ q Hq.
    rewrite active_debited, active_kicked in Hq.
    apply list_elem_of_fmap in Hq as (p & -> & Hp).
    apply list_elem_of_filter in Hp as [Hge _]. cbn [money debit]. lia.
Qed.

(** What a turn does to the roster, read from its trace. *)
Lemma change_cards_turn_removes player w :
  exists tr,
    trace (snd (change_cards_turn player w)) = trace w ++ tr /\
    players (table (snd (change_cards_turn player w)))
    = fold_left (fun gp pid => remove pid gp) (omap dead_player tr) (players (table w)).
Proof.
  rewrite change_cards_turn_run. cbv zeta.
  destruct (fst (asked player (enforced (table w)) (table w))) as [discard|e] eqn:E.
  - rewrite exchange_run. cbn [snd trace table]. eexists. rewrite <- app_assoc.
    split; [reflexivity|].
    destruct (exchanged_frame player discard
                (with_clock (snd (asked player (enforced (table w)) (table w))) (table w)))
      as (-> & _).
    unfold exchange_trace. destruct discard; reflexivity.
  - apply asked_raises in E. destruct (failure_run player e E) as (h & -> & Hh).
    rewrite Hh. cbn [snd trace table]. eexists. rewrite <- app_assoc.
    split; reflexivity.
Qed.

(** X13. Eliminations and dead-player events of the card-exchange round
    coincide: the roster after the round is the roster before it with the
    players named by the dead-player events of the round removed, in the
    order of the events. *)
Theorem exchange_round_removes_the_dead (dealer_id : PlayerId) (w : World) :
  exists tr,
    trace (snd (_change_cards_round dealer_id w)) = trace w ++ tr /\
    players (table (snd (_change_cards_round dealer_id w)))
    = fold_left (fun gp pid => remove pid gp) (omap dead_player tr) (players (table w)).
Proof.
  unfold _change_cards_round, bind, gets. cbn [fst snd].
  generalize (round dealer_id (players (table w))). intros l. revert w.
  induction l as [|p l IH]; intros w.
  - exists []. cbn. by rewrite app_nil_r.
  - cbn [for_each]. unfold bind.
    pose proof (change_cards_turn_returns (player_id p) w) as Hret.
    destruct (change_cards_turn_removes (player_id p) w) as (tr1 & Ht1 & Hp1).
    destruct (change_cards_turn (player_id p) w) as [r w1]. cbn [fst snd] in *. subst r.
    destruct (IH w1) as (tr2 & Ht2 & Hp2).
    exists (tr1 ++ tr2). rewrite Ht2, Ht1, app_assoc, Hp2, Hp1, omap_app, fold_left_app.
    auto.
Qed.

End Roster.

(** ** The phases of a hand *)

Section Phases.
Context `{Collaborators}.

(** [_collect_blinds] changes the roster and nothing else of the table. *)
Lemma collect_blinds_table blind w :
  table (snd (_collect_blinds blind w))
  = with_players (players (table (snd (_collect_blinds blind w)))) (table w).
Proof.
  pose proof (collect_blinds_general blind w) as Hrun. cbv zeta in Hrun. rewrite Hrun.
  destruct (_ <? 2)%nat; reflexivity.
Qed.

(** X14. When the blinds are collected, the hand opens with the new-game
    event, which names the players left active and carries the bets, then
    the pots update with the blinds added to the fresh pots; the deck is the
    fresh deck and no hand is dealt yet. *)
Theorem hand_opens_with_new_game (blind : Z) (dealer_id : PlayerId) (w : World)
    (bets : gmap PlayerId Z) :
  fst (_collect_blinds blind (snd (create_hand w))) = Return bets ->
  let w1 := snd (_collect_blinds blind (snd (create_hand w))) in
  let ids := map player_id (active (players (table w1))) in
  open_hand blind dealer_id w =
  (Return tt,
   {| table := with_pots (add_bets bets create_pots) (table w1);
      trace := trace w1 ++ [Dispatch (NewGame game_id ids dealer_id bets);
                            Dispatch (PotsUpdate ids (add_bets bets create_pots))] |}) /\
  deck (table w1) = create_deck /\
  scores (table w1) = ∅ /\
  pots (table w1) = create_pots.
Proof.
  intros Hb. cbv zeta.
  pose proof (collect_blinds_table blind (snd (create_hand w))) as Ht.
  split; [|rewrite Ht; auto].
  unfold open_hand. unfold bind at 1 2. rewrite create_hand_returns. cbv iota beta.
  cbn [snd].
  destruct (_collect_blinds blind (snd (create_hand w))) as [[b|e] w1]; [|discriminate].
  cbn [fst snd] in Hb, Ht |- *. injection Hb as ->.
  unfold announce. run_engine. rewrite Ht. cbn [players pots with_players with_pots].
  rewrite <- app_assoc. reflexivity.
Qed.

Lemma calls_of_app (l1 l2 : list (Action Pots Output)) :
  calls_of (l1 ++ l2) = calls_of l1 ++ calls_of l2.
Proof. apply omap_app. Qed.

Lemma calls_of_silent (tr : list (Action Pots Output)) :
  forallb not_a_call tr = true -> calls_of tr = [].
Proof.
  induction tr as [|a tr IH]; [reflexivity|]. cbn [forallb]. rewrite andb_true_iff.
  intros [Ha Htr]. unfold calls_of. cbn [omap]. fold (calls_of tr).
  destruct a; cbn in *; try discriminate; auto.
Qed.

Lemma adds_bind {A B} good (m : Engine A) (k : A -> Engine B) P Q :
  adds good m P ->
  (forall a, P (Return a) -> adds good (k a) Q) ->
  (forall e, P (Raise e) -> Q (Raise e)) ->
  adds good (bind m k) Q.
Proof.
  intros Hm Hk He w. unfold bind. destruct (Hm w) as (tr & Htr & Hq & HP).
  destruct (m w) as [[a|e] w1]; cbn [fst snd] in *.
  - destruct (Hk a HP w1) as (tr' & Htr' & Hq' & HQ).
    exists (tr ++ tr'). rewrite Htr', Htr, app_assoc, forallb_app, Hq, Hq'. auto.
  - exists tr. auto.
Qed.

Lemma adds_nothing {A} good (m : Engine A) (Q : Outcome A -> Prop) :
  (forall w, trace (snd (m w)) = trace w /\ Q (fst (m w))) -> adds good m Q.
Proof. intros Hm w. destruct (Hm w) as [Ht HQ]. exists []. rewrite app_nil_r. auto. Qed.

Lemma adds_weaken {A} good (m : Engine A) (P Q : Outcome A -> Prop) :
  adds good m P -> (forall r, P r -> Q r) -> adds good m Q.
Proof. intros Hm HPQ w. destruct (Hm w) as (tr & ? & ? & ?). eauto 6. Qed.

Lemma adds_gets {A B} good (f : Table Pots -> A) (k : A -> Engine B) Q :
  (forall a, adds good (k a) Q) -> adds good (bind (gets f) k) Q.
Proof. intros Hk w. unfold bind, gets. apply Hk. Qed.

Lemma adds_for_each {A} good (l : list A) (body : A -> Engine unit) :
  (forall x, adds good (body x) (fun r => r = Return tt)) ->
  adds good (for_each l body) (fun r => r = Return tt).
Proof.
  intros Hb. induction l as [|x l IH]; cbn [for_each].
  - apply adds_nothing. auto.
  - apply (adds_bind _ _ _ (fun r => r = Return tt)); [apply Hb|auto|discriminate].
Qed.

Lemma change_cards_round_is_silent dealer_id :
  adds not_a_call (_change_cards_round dealer_id) (fun r => r = Return tt).
Proof.
  unfold _change_cards_round. apply adds_gets. intros gp.
  apply adds_for_each. intros p w.
  rewrite change_cards_turn_run. cbv zeta.
  destruct (fst (asked (player_id p) (enforced (table w)) (table w))) as [discard|e] eqn:E.
  - rewrite exchange_run. cbn [fst snd trace]. eexists. rewrite <- app_assoc.
    split; [reflexivity|]. split; [|reflexivity].
    unfold exchange_trace. destruct discard; reflexivity.
  - apply asked_raises in E. destruct (failure_run (player_id p) e E) as (h & -> & Hh).
    rewrite Hh. cbn [fst snd trace]. eexists. rewrite <- app_assoc.
    split; [reflexivity|]. split; reflexivity.
Qed.

Lemma open_hand_is_silent blind dealer_id :
  adds not_a_call (open_hand blind dealer_id) (fun _ => True).
Proof.
  intros w. unfold open_hand. unfold bind at 1 2. rewrite create_hand_returns.
  cbv iota beta. cbn [snd].
  pose proof (collect_blinds_general blind (snd (create_hand w))) as Hrun.
  cbv zeta in Hrun. rewrite Hrun.
  change (trace (snd (create_hand w))) with (trace w).
  assert (Hdead : forall l : list Player, forallb not_a_call (map dead_player_event l) = true).
  { intros l. induction l as [|p l IH]; [reflexivity|exact IH]. }
  destruct (_ <? 2)%nat; cbv iota beta.
  - eexists. cbn [fst snd trace]. split; [reflexivity|]. split; [apply Hdead|exact I].
  - unfold announce. run_engine. eexists. rewrite <- !app_assoc.
    split; [reflexivity|]. rewrite forallb_app, Hdead. auto.
Qed.

(** Sequencing for [calls]. *)
Lemma calls_after_silent (m k : Engine unit) (Q : Outcome unit -> list Routine -> Prop) :
  adds not_a_call m may_end -> calls k Q -> Q (Raise EndGameException) [] ->
  calls (m ;;; k) Q.
Proof.
  intros Hm Hk HQ w. unfold bind. destruct (Hm w) as (tr & Htr & Hs & Hend).
  apply calls_of_silent in Hs.
  destruct (m w) as [[[]|e] w1]; cbn [fst snd] in *.
  - destruct (Hk w1) as (tr' & Htr' & HQ'). exists (tr ++ tr').
    rewrite Htr', Htr, app_assoc, calls_of_app, Hs. auto.
  - exists tr. rewrite Hs. destruct Hend as [Hend|Hend]; [discriminate|].
    injection Hend as ->. auto.
Qed.

Lemma calls_after_call r f (k : Engine unit) (Q : Outcome unit -> list Routine -> Prop) :
  calls k (fun o cs => Q o (r :: cs)) -> calls (call r f ;;; k) Q.
Proof.
  intros Hk w. unfold bind, call. destruct (f (table w)) as [t out].
  destruct (Hk {| table := t; trace := trace w ++ Call r :: map Inside out |})
    as (tr' & Htr' & HQ').
  exists ((Call r :: map Inside out) ++ tr'). cbn [trace] in Htr'.
  rewrite Htr', app_assoc. split; [reflexivity|].
  rewrite calls_of_app.
  assert (Hin : calls_of (Call r :: map Inside out) = [r]).
  { clear. unfold calls_of. cbn. f_equal.
    induction out as [|o out IH]; [reflexivity|exact IH]. }
  rewrite Hin. exact HQ'.
Qed.

Lemma detect_game_over_is_silent : adds not_a_call detect_game_over may_end.
Proof.
  apply adds_nothing. intros w. unfold detect_game_over, bind, gets.
  destruct (_ <? 2)%nat; cbn; unfold may_end; auto.
Qed.

Lemma sleep_is_silent seconds : adds not_a_call (sleep seconds) may_end.
Proof. intros w. exists [Sleep seconds]. cbn. unfold may_end. auto. Qed.

Lemma calls_gets {A B} (f : Table Pots -> A) (k : A -> Engine B) Q :
  (forall a, calls (k a) Q) -> calls (bind (gets f) k) Q.
Proof. intros Hk w. unfold bind, gets. apply Hk. Qed.

Lemma calls_raise {A} e (Q : Outcome A -> list Routine -> Prop) :
  Q (Raise e) [] -> calls (raise e) Q.
Proof. intros HQ w. exists []. rewrite app_nil_r. auto. Qed.

(** The calls of the [try] block: the deal, then no, one or two bet
    rounds. *)
Lemma calls_hand_phases dealer_id :
  calls (hand_phases dealer_id)
    (fun o cs => o = Raise EndGameException /\
                 exists bet, cs = AssignCards :: bet /\
                             (bet = [] \/ bet = [BetRound] \/ bet = [BetRound; BetRound])).
Proof.
  unfold hand_phases, _game_over_detection.
  apply calls_after_call.
  apply calls_after_silent; [apply detect_game_over_is_silent| |eauto 6].
  apply calls_after_silent; [apply sleep_is_silent| |eauto 6].
  apply calls_after_call.
  apply calls_after_silent; [apply detect_game_over_is_silent| |eauto 8].
  apply calls_after_silent;
    [apply (adds_weaken _ _ _ _ (change_cards_round_is_silent dealer_id));
     unfold may_end; auto| |eauto 8].
  apply calls_after_silent; [apply detect_game_over_is_silent| |eauto 8].
  apply calls_after_silent; [apply sleep_is_silent| |eauto 8].
  apply calls_gets. intros n.
  apply calls_after_silent; [|idtac|eauto 8].
  { apply adds_nothing. intros w. destruct (n <? 2)%nat; cbn; unfold may_end; auto. }
  apply calls_after_call.
  apply calls_after_silent; [apply detect_game_over_is_silent| |eauto 8].
  apply calls_raise. eauto 8.
Qed.

End Phases.

Section Order.
Context `{Collaborators}.

Lemma calls_of_call_inside r (out : list Output) :
  calls_of (Call r :: map Inside out) = [r].
Proof.
  unfold calls_of. cbn. f_equal. induction out as [|o out IH]; [reflexivity|exact IH].
Qed.

(** X15. The routines of the base game are called in a fixed order in every
    hand whose blinds are collected: the deal first, then no, one or two
    bet rounds, then the showdown or not, then the detection of the
    winners, last; the exchange and the opening call none. *)
Theorem hand_calls_in_order (blind : Z) (dealer_id : PlayerId) (w : World)
    (bets : gmap PlayerId Z) :
  fst (_collect_blinds blind (snd (create_hand w))) = Return bets ->
  exists tr bet showdown,
    trace (snd (play_hand blind dealer_id w)) = trace w ++ tr /\
    calls_of tr = AssignCards :: bet ++ showdown ++ [DetectWinners] /\
    (bet = [] \/ bet = [BetRound] \/ bet = [BetRound; BetRound]) /\
    (showdown = [] \/ showdown = [Showdown]).
Proof.
  intros Hb. pose proof (open_hand_returns blind dealer_id w bets Hb) as Hopen.
  destruct (open_hand_is_silent blind dealer_id w) as (tr0 & Htr0 & Hs0 & _).
  apply calls_of_silent in Hs0.
  unfold play_hand, try_except_else, bind.
  destruct (open_hand blind dealer_id w) as [r0 wb]. cbn [fst snd] in Hopen, Htr0. subst r0.
  destruct (calls_hand_phases dealer_id wb) as (tr1 & Htr1 & Hraise & bet & Hc1 & Hbet).
  destruct (hand_phases dealer_id wb) as [r1 w1]. cbn [fst snd] in Hraise, Htr1. subst r1.
  destruct (end_game_run w1) as (h & -> & ->). run_engine.
  exists (tr0 ++ tr1 ++ shown (table w1) ++
          (Call DetectWinners :: map Inside (snd (_detect_winners (shown_table (table w1)))))
          ++ [Sleep WAIT_AFTER_HAND] ++ [Dispatch GameOver]),
    bet, (calls_of (shown (table w1))).
  split; [|split; [|split; [exact Hbet|]]].
  - rewrite Htr1, Htr0, <- !app_assoc. cbn [app]. rewrite <- !app_assoc. reflexivity.
  - rewrite !calls_of_app, Hs0, Hc1, calls_of_call_inside.
    change (calls_of [Sleep WAIT_AFTER_HAND]) with (@nil Routine).
    change (calls_of [Dispatch GameOver]) with (@nil Routine).
    cbn [app]. reflexivity.
  - unfold shown. destruct (1 <? _)%nat; [right; apply calls_of_call_inside|by left].
Qed.

(** X16. A hand decided at the deal: when fewer than two players are active
    after the cards are dealt, no bet round is run, nobody is asked to
    change cards, there is no showdown; the winners are detected on the
    table the deal left and the game-over event closes the hand. *)
Theorem hand_decided_at_the_deal (blind : Z) (dealer_id : PlayerId) (w : World) :
  fst (open_hand blind dealer_id w) = Return tt ->
  let w1 := snd (open_hand blind dealer_id w) in
  let dealt := _assign_cards 5 dealer_id (table w1) in
  (count_active (players (fst dealt)) < 2)%nat ->
  play_hand blind dealer_id w =
  (Return tt,
   {| table := fst (_detect_winners (fst dealt));
      trace := trace w1 ++ Call AssignCards :: map Inside (snd dealt) ++
               Call DetectWinners :: map Inside (snd (_detect_winners (fst dealt))) ++
               [Sleep WAIT_AFTER_HAND; Dispatch GameOver] |}).
Proof.
  intros Hopen. cbv zeta. intros Hfew.
  unfold play_hand, try_except_else. unfold bind at 1 2.
  destruct (open_hand blind dealer_id w) as [r0 w1]. cbn [fst snd] in *. subst r0.
  unfold hand_phases. unfold bind at 1. unfold call at 1.
  destruct (_assign_cards 5 dealer_id (table w1)) as [t2 out]. cbn [fst snd] in *.
  unfold bind at 1. unfold detect_game_over at 1. unfold bind at 1, gets at 1.
  cbn [table]. apply Nat.ltb_lt in Hfew. rewrite Hfew. cbn [raise end_game].
  run_engine. cbn [raise].
  assert (Hone : (1 <? count_active (players t2))%nat = false).
  { apply Nat.ltb_ge. apply Nat.ltb_lt in Hfew. lia. }
  rewrite Hone. run_engine.
  destruct (_detect_winners t2) as [t3 out3]. run_engine.
  rewrite <- ?app_assoc. cbn [app]. rewrite <- ?app_assoc. reflexivity.
Qed.

End Order.

Section Final_bet.
Context `{Collaborators}.

(** The [try] block is the part before the check of the money, followed by
    the rest. *)
Lemma hand_phases_split dealer_id w :
  hand_phases dealer_id w =
  match until_final_bet dealer_id w with
  | (Return _, w') => final_bet dealer_id w'
  | (Raise e, w') => (Raise e, w')
  end.
Proof.
  unfold hand_phases, until_final_bet, final_bet, bind.
  repeat match goal with
         | |- context [match ?m ?x with _ => _ end] =>
             lazymatch type of (m x) with
             | (Outcome _ * World)%type => destruct (m x) as [[[]|?] ?]
             end
         end; reflexivity.
Qed.

Lemma returns_after_bind {A} (P : World -> Prop) (m : Engine A) (k : Engine unit) :
  (forall w, fst (k w) = Return tt -> P (snd (k w))) ->
  forall w, fst ((m ;;; k) w) = Return tt -> P (snd ((m ;;; k) w)).
Proof.
  intros Hk w. unfold bind. destruct (m w) as [[a|e] w']; cbn [fst snd]; [apply Hk|].
  discriminate.
Qed.

(** When the part before the check returns, two players at least are
    active. *)
Lemma until_final_bet_leaves_two dealer_id w :
  fst (until_final_bet dealer_id w) = Return tt ->
  (2 <= count_active (players (table (snd (until_final_bet dealer_id w)))))%nat.
Proof.
  revert w. unfold until_final_bet.
  do 6 apply (returns_after_bind
                (fun w => (2 <= count_active (players (table w)))%nat)).
  intros w. unfold bind, detect_game_over, bind, gets, sleep, emit. cbn [table fst snd].
  destruct (Nat.ltb_spec (count_active (players (table w))) 2); cbn; [discriminate|auto].
Qed.

(** X17. The check of the money: when the hand reaches it with fewer than
    two active players who have money, the final bet round is not run; the
    hand goes to the showdown (two players at least are active there), the
    winners are detected and the game-over event closes the hand. *)
Theorem final_bet_is_skipped_without_money (blind : Z) (dealer_id : PlayerId) (w : World) :
  fst (open_hand blind dealer_id w) = Return tt ->
  let w1 := snd (open_hand blind dealer_id w) in
  fst (until_final_bet dealer_id w1) = Return tt ->
  let w2 := snd (until_final_bet dealer_id w1) in
  (count_active_with_money (players (table w2)) < 2)%nat ->
  play_hand blind dealer_id w =
  (Return tt,
   {| table := fst (_detect_winners (fst (_showdown (table w2))));
      trace := trace w2 ++ Call Showdown :: map Inside (snd (_showdown (table w2))) ++
               Call DetectWinners ::
               map Inside (snd (_detect_winners (fst (_showdown (table w2))))) ++
               [Sleep WAIT_AFTER_HAND; Dispatch GameOver] |}).
Proof.
  intros Hopen. cbv zeta. intros Huntil Hmoney.
  pose proof (until_final_bet_leaves_two dealer_id _ Huntil) as Htwo.
  unfold play_hand, try_except_else. unfold bind at 1 2.
  destruct (open_hand blind dealer_id w) as [r0 w1]. cbn [fst snd] in *. subst r0.
  rewrite hand_phases_split.
  destruct (until_final_bet dealer_id w1) as [r2 w2]. cbn [fst snd] in *. subst r2.
  unfold final_bet. unfold bind at 1 2. unfold gets at 1. cbn [table].
  apply Nat.ltb_lt in Hmoney. rewrite Hmoney. cbn [raise end_game]. run_engine.
  assert (Hseveral : (1 <? count_active (players (table w2)))%nat = true)
    by (apply Nat.ltb_lt; lia).
  rewrite Hseveral. run_engine.
  destruct (_showdown (table w2)) as [t3 out3]. run_engine.
  destruct (_detect_winners t3) as [t4 out4]. run_engine.
  rewrite <- ?app_assoc. cbn [app]. rewrite <- ?app_assoc. reflexivity.
Qed.

End Final_bet.

(** ** Cards are moved, not made *)

Section Cards.
Context `{Collaborators}.

(** Drawing splits the deck into the cards drawn and the cards left. *)
Lemma pop_cards_split n d : fst (pop_cards n d) ++ deck_cards (snd (pop_cards n d)) = deck_cards d.
Proof.
  unfold pop_cards, deck_cards. destruct (n <=? length (pool d))%nat; cbn [fst snd pool discards].
  - by rewrite app_assoc, take_drop.
  - by rewrite app_nil_r, <- app_assoc, take_drop.
Qed.

(** X19. An exchange whose discard list names no card twice, from a hand
    that holds no card twice, only moves cards between the hand and the
    deck: together they hold the same cards after the exchange as before,
    even when the deck runs short. *)
Theorem exchange_only_moves_cards (player : PlayerId) (discard : list Card) (w : World) :
  NoDup (player_cards player (scores (table w))) ->
  NoDup discard ->
  (forall c, c ∈ discard -> c ∈ player_cards player (scores (table w))) ->
  let w' := snd (exchange player discard w) in
  deck_cards (deck (table w')) ++ player_cards player (scores (table w'))
  ≡ₚ deck_cards (deck (table w)) ++ player_cards player (scores (table w)).
Proof.
  intros Hh Hd Hsub. cbv zeta. rewrite exchange_run. cbn [snd table]. unfold exchanged.
  destruct discard as [|c0 discard]; [reflexivity|].
  pose proof (pop_cards_split (length (c0 :: discard)) (deck (table w))) as Hsplit.
  destruct (pop_cards (length (c0 :: discard)) (deck (table w))) as [new_cards d'].
  cbn [fst snd] in Hsplit. cbn [scores deck with_scores with_deck].
  assert (Hhand : forall cs sc, player_cards player (assign_cards player cs sc) = cs).
  { intros cs sc. unfold player_cards, assign_cards. by rewrite lookup_insert_eq. }
  rewrite Hhand, <- Hsplit.
  set (hand := player_cards player (scores (table w))) in *.
  set (kept := filter (fun card => card_in card (c0 :: discard) = false) hand).
  assert (Hparts : hand ≡ₚ kept ++ (c0 :: discard)).
  { rewrite <- (filter_app_complement (fun card => card_in card (c0 :: discard) = false) hand).
    fold kept. apply Permutation_app_head.
    apply NoDup_Permutation; [by apply NoDup_filter|exact Hd|].
    intros c. rewrite list_elem_of_filter. unfold card_in. rewrite bool_decide_eq_false.
    split; [intros [Hin _]; by apply dec_stable|auto]. }
  rewrite Hparts. unfold deck_cards, push_cards. cbn [pool discards].
  generalize (c0 :: discard). intros l. solve_Permutation.
Qed.

End Cards.

(** ** The further properties at concrete tables *)

(** X1 with a message that has no "cards" field. *)
Lemma missing_cards_field_witness :
  let w := dealt no_cards in
  fst (@change_cards_turn (scripted cards24 no_cards) "alice" w) = Return tt /\
  players (table (snd (@change_cards_turn (scripted cards24 no_cards) "alice" w)))
  = [{| player_id := "alice"; money := 100; is_active := false |}; seat "bob" 100].
Proof.
  cbv zeta.
  assert (Hr : @recv_message (scripted cards24 no_cards) "alice"
                 (@enforced (scripted cards24 no_cards) (table (dealt no_cards)))
                 (clock (table (dealt no_cards)))
               = (Message {[ "message_type"%string := PyStr "change-cards" ]}, 1001 * second))
    by (vm_compute; reflexivity).
  rewrite (@missing_cards_field_eliminates (scripted cards24 no_cards) "alice"
             (dealt no_cards) {[ "message_type"%string := PyStr "change-cards" ]}
             (1001 * second) Hr eq_refl eq_refl).
  split; reflexivity.
Defined.

(** X2 at the references 0 and 2. *)
Lemma accepted_discard_witness :
  parse_discard (change_cards_message (PyList [PyInt 0; PyInt 2])) five_cards
  = Return [card 14 3; card 14 1] /\
  (length [card 14 3; card 14 1] <= 4)%nat.
Proof.
  split; [reflexivity|].
  exact (proj1 (accepted_discard_is_small_and_held
                  (change_cards_message (PyList [PyInt 0; PyInt 2])) five_cards
                  [card 14 3; card 14 1] eq_refl)).
Defined.

(** X4 at the references 0, 2 followed by 2, 0. *)
Lemma repeated_references_witness :
  parse_discard (change_cards_message (PyList ([PyInt 0; PyInt 2] ++ [PyInt 2; PyInt 0])))
                five_cards
  = parse_discard (change_cards_message (PyList [PyInt 0; PyInt 2])) five_cards.
Proof.
  refine (proj2 (repeated_references_collapse [PyInt 0; PyInt 2] [PyInt 2; PyInt 0]
                   five_cards eq_refl _)).
  intros x Hx. apply elem_of_cons in Hx as [-> | Hx]; [right; left|].
  apply elem_of_cons in Hx as [-> | Hx]; [left|inversion Hx].
Defined.

(** X8 with players who change the cards 0 and 2. *)
Lemma at_most_four_witness :
  let script := fun _ : PlayerId => change_cards [0; 2] in
  let w := dealt script in
  Dispatch (ChangeCards "alice" 2)
    ∈ drop (length (trace w))
           (trace (snd (@_change_cards_round (scripted cards24 script) "bob" w))) /\
  (2 <= 4)%nat.
Proof.
  cbv zeta.
  assert (Hin : Dispatch (ChangeCards "alice" 2)
                  ∈ drop (length (trace (dealt (fun _ => change_cards [0; 2]))))
                      (trace (snd (@_change_cards_round
                                     (scripted cards24 (fun _ => change_cards [0; 2]))
                                     "bob" (dealt (fun _ => change_cards [0; 2])))))).
  { vm_compute. repeat constructor. }
  split; [exact Hin|].
  exact (@exchange_round_reports_at_most_four
           (scripted cards24 (fun _ => change_cards [0; 2])) "bob"
           (dealt (fun _ => change_cards [0; 2])) "alice" 2%nat Hin).
Defined.

(** X9 with the first card of the hand discarded. *)
Lemma discarded_cards_witness :
  let w := dealt silent in
  (forall c, c ∈ [card 14 3] -> c ∉ deck_cards (deck (table w))) /\
  card 14 3 ∉ player_cards "alice"
    (scores (table (snd (@exchange (scripted cards24 silent) "alice" [card 14 3] w)))).
Proof.
  cbv zeta.
  assert (Hdeck : forall c, c ∈ [card 14 3] -> c ∉ deck_cards (deck (table (dealt silent)))).
  { intros c Hc. apply list_elem_of_singleton in Hc as ->.
    apply (bool_decide_unpack _). vm_compute. exact I. }
  split; [exact Hdeck|].
  apply (proj1 (@discarded_cards_do_not_come_back (scripted cards24 silent) "alice"
                  [card 14 3] (dealt silent) Hdeck)).
  by left.
Defined.

(** X10 with a second player too poor for the blind. *)
Lemma aborted_hand_witness :
  let w := @start (scripted cards24 silent) one_poor in
  fst (@play_hand (scripted cards24 silent) 10 "alice" w)
    = Raise (GameError "Not enough players") /\
  total_money (players (table (snd (@play_hand (scripted cards24 silent) 10 "alice" w))))
    = total_money one_poor.
Proof.
  cbv zeta.
  assert (He : fst (@play_hand (scripted cards24 silent) 10 "alice"
                      (@start (scripted cards24 silent) one_poor))
               = Raise (GameError "Not enough players")) by reflexivity.
  split; [exact He|].
  exact (proj1 (proj2 (proj2 (@aborted_hand_takes_no_money (scripted cards24 silent) 10
                                "alice" (@start (scripted cards24 silent) one_poor) _ He)))).
Defined.


Lemma blinds_touch_only_active_witness :
  let w := @start (scripted cards24 silent) three_players in
  NoDup (map player_id three_players) /\
  Forall2 same_seat three_players
    (players (table (snd (@_collect_blinds (scripted cards24 silent) 10 w)))).
Proof.
  cbv zeta.
  assert (Hnd : NoDup (map player_id three_players)).
  { apply (bool_decide_unpack _). vm_compute. exact I. }
  split; [exact Hnd|].
  exact (proj1 (proj2 (@blinds_touch_only_active_players (scripted cards24 silent) 10
                         (@start (scripted cards24 silent) three_players) Hnd))).
Defined.

(** X14 and X15 with two players who both run out of time. *)
Lemma hand_opens_witness :
  let w := @start (scripted cards24 silent) two_players in
  fst (@_collect_blinds (scripted cards24 silent) 10
         (snd (@create_hand (scripted cards24 silent) w)))
    = Return {[ "alice"%string := 10; "bob"%string := 10 ]} /\
  fst (@open_hand (scripted cards24 silent) 10 "bob" w) = Return tt.
Proof.
  cbv zeta.
  assert (Hb : fst (@_collect_blinds (scripted cards24 silent) 10
                      (snd (@create_hand (scripted cards24 silent)
                              (@start (scripted cards24 silent) two_players))))
               = Return {[ "alice"%string := 10; "bob"%string := 10 ]}).
  { vm_compute. reflexivity. }
  split; [exact Hb|].
  rewrite (proj1 (@hand_opens_with_new_game (scripted cards24 silent) 10 "bob"
                    (@start (scripted cards24 silent) two_players) _ Hb)).
  reflexivity.
Defined.

Lemma hand_calls_witness :
  let w := @start (scripted cards24 silent) two_players in
  fst (@_collect_blinds (scripted cards24 silent) 10
         (snd (@create_hand (scripted cards24 silent) w)))
    = Return {[ "alice"%string := 10; "bob"%string := 10 ]} /\
  exists tr bet showdown,
    trace (snd (@play_hand (scripted cards24 silent) 10 "bob" w)) = trace w ++ tr /\
    @calls_of (scripted cards24 silent) tr = AssignCards :: bet ++ showdown ++ [DetectWinners].
Proof.
  cbv zeta.
  assert (Hb : fst (@_collect_blinds (scripted cards24 silent) 10
                      (snd (@create_hand (scripted cards24 silent)
                              (@start (scripted cards24 silent) two_players))))
               = Return {[ "alice"%string := 10; "bob"%string := 10 ]}).
  { vm_compute. reflexivity. }
  split; [exact Hb|].
  destruct (@hand_calls_in_order (scripted cards24 silent) 10 "bob"
              (@start (scripted cards24 silent) two_players) _ Hb)
    as (tr & bet & showdown & Ht & Hc & _).
  exists tr, bet, showdown. split; assumption.
Defined.

(** X16 with a deal during which the second player drops out. *)
Lemma hand_decided_at_the_deal_witness :
  let w := @start (dropping "bob") two_players in
  fst (@open_hand (dropping "bob") 10 "bob" w) = Return tt /\
  @calls_of (dropping "bob") (trace (snd (@play_hand (dropping "bob") 10 "bob" w)))
  = [AssignCards; DetectWinners].
Proof.
  cbv zeta. split; [reflexivity|].
  rewrite (@hand_decided_at_the_deal (dropping "bob") 10 "bob"
             (@start (dropping "bob") two_players) eq_refl);
    [reflexivity|vm_compute; lia].
Defined.

(** X17 with two players who hold just the blind and change no card. *)
Lemma final_bet_witness :
  let C := scripted cards24 (fun _ => change_cards []) in
  let w := @start C all_in in
  fst (@open_hand C 10 "bob" w) = Return tt /\
  @calls_of C (trace (snd (@play_hand C 10 "bob" w)))
  = [AssignCards; BetRound; Showdown; DetectWinners].
Proof.
  cbv zeta. split; [reflexivity|].
  rewrite (@final_bet_is_skipped_without_money (scripted cards24 (fun _ => change_cards []))
             10 "bob" (@start (scripted cards24 (fun _ => change_cards [])) all_in) eq_refl);
    [reflexivity|reflexivity|vm_compute; lia].
Defined.

(** X18 with the references 0 and 2. *)
Lemma turn_keeps_sizes_witness :
  let C := scripted cards24 (fun _ => change_cards [0; 2]) in
  let w := dealt (fun _ => change_cards [0; 2]) in
  length (player_cards "alice" (scores (table (snd (@change_cards_turn C "alice" w))))) = 5%nat /\
  deck_size (deck (table (snd (@change_cards_turn C "alice" w)))) = 14%nat.
Proof.
  cbv zeta.
  refine (@turn_keeps_sizes_without_negative_references
            (scripted cards24 (fun _ => change_cards [0; 2])) "alice"
            (dealt (fun _ => change_cards [0; 2]))
            (change_cards_message (PyList (map PyInt [0; 2])))
            (PyList (map PyInt [0; 2])) (map PyInt [0; 2]) _ eq_refl eq_refl eq_refl eq_refl _ _).
  - apply (bool_decide_unpack _). vm_compute. exact I.
  - repeat constructor; eexists; (split; [reflexivity|lia]).
  - vm_compute. lia.
Defined.

(** X19 with the first and third card of the hand discarded. *)
Lemma exchange_only_moves_cards_witness :
  let w := dealt silent in
  let w' := snd (@exchange (scripted cards24 silent) "alice" [card 14 3; card 14 1] w) in
  deck_cards (deck (table w')) ++ player_cards "alice" (scores (table w'))
  ≡ₚ deck_cards (deck (table w)) ++ player_cards "alice" (scores (table w)).
Proof.
  cbv zeta.
  refine (@exchange_only_moves_cards (scripted cards24 silent) "alice"
            [card 14 3; card 14 1] (dealt silent) _ _ _).
  - apply (bool_decide_unpack _). vm_compute. exact I.
  - apply (bool_decide_unpack _). vm_compute. exact I.
  - intros c Hc. apply elem_of_cons in Hc as [-> | Hc];
      [apply (bool_decide_unpack _); vm_compute; exact I|].
    apply list_elem_of_singleton in Hc as ->.
    apply (bool_decide_unpack _). vm_compute. exact I.
Defined.
